(** * vnpy_webtrader: the web service of [vnpy_webtrader/web.py]

    A shallow embedding of the authentication layer (login, token issue and
    check), of the REST routes guarded by [Depends(get_access)], and of the
    websocket registry with its broadcast, followed by the properties of the
    design document that concern them.

    Conventions of the embedding.
    - A Python [str] is a [string], character by character; the characters
      above 127 stand for the non-ASCII ones, on which
      [secrets.compare_digest] raises [TypeError].
    - A [dict] with [str] keys is a [gmap string _].
    - [datetime.utcnow()] is an explicit argument, in whole seconds since the
      epoch (the resolution of the [exp] claim); a [timedelta] is a number of
      seconds.
    - A call that may raise returns a [result]; [Raise] carries the exception.
    - The coroutines run one at a time on the event loop, and give way at
      their awaits. A run of the service is a list of events; a broadcast,
      which awaits at each send, is taken in one piece by the event
      [Publishes] and turn by turn, with the events of the other coroutines
      between its turns, by [broadcast_run].
    - The third-party libraries (python-jose, passlib, FastAPI/Starlette) are
      not part of the repository: what [web.py] uses of them is modelled in the
      modules [Jose], [Passlib] and in the websocket primitives, at the level
      of their contracts. *)

From stdpp Require Import base strings gmap list.
From Stdlib Require Import ZArith Lia.

Local Open Scope Z_scope.

(** ** python-jose: [jwt.encode], [jwt.decode] and [JWTError] *)

Module Jose.

(** JSON values carried by the claims [web.py] handles: text ([sub]),
    numeric dates ([exp]; [jwt.encode] turns a [datetime] into one) and
    booleans. *)
Inductive value :=
| VStr (s : string)
| VNum (n : Z)
| VBool (b : bool).

#[export] Instance value_eq_dec : EqDecision value.
Proof. solve_decision. Defined.

(** The ways [jwt.decode] fails. All are [JWTError] or a subclass of it, so
    [except JWTError] catches each of them. *)
Inductive JWTError :=
| InvalidSignature       (* JWTError: the signature does not validate *)
| ExpiredSignatureError  (* subclass: the exp claim has passed *)
| MalformedToken         (* JWTError: the string is not a compact JWS *)
| JWTClaimsError.        (* subclass: a registered claim is ill-typed *)

#[export] Instance JWTError_eq_dec : EqDecision JWTError.
Proof. solve_decision. Defined.

(** The keyed signature, kept symbolic: the tag of [body] under [key] and
    [alg] is the triple itself, so two tags agree exactly when algorithm,
    key and signed claims agree. *)
Record mac := Mac {
  mac_alg : string;
  mac_key : string;
  mac_body : gmap string value
}.

#[export] Instance mac_eq_dec : EqDecision mac.
Proof. solve_decision. Defined.

Definition sign (alg key : string) (body : gmap string value) : mac :=
  Mac alg key body.

(** A token string either parses as a compact JWS (header algorithm,
    claims, signature) or does not parse at all. *)
Inductive token :=
| Compact (alg : string) (body : gmap string value) (tag : mac)
| Unparseable (raw : string).

(** [jwt.encode(claims, key, algorithm=alg)] *)
Definition encode (claims : gmap string value) (key alg : string) : token :=
  Compact alg claims (sign alg key claims).

(** The signature check of [jwt.decode]: the header algorithm is one of the
    allowed ones and the tag is the one [key] produces on the claims. *)
Definition verifies (key : string) (algorithms : list string) (t : token) : bool :=
  match t with
  | Compact alg body tag =>
      bool_decide (alg ∈ algorithms) && bool_decide (tag = sign alg key body)
  | Unparseable _ => false
  end.

(** The expiry test of [jwt.decode]: python-jose raises
    [ExpiredSignatureError] when [exp < now], with [now] in whole seconds;
    at [now = exp] the token still passes. *)
Definition expired (exp now : Z) : bool := exp <? now.

(** Validation of the registered claims present in the payload, [exp]
    before [sub], as [jwt.decode] does after the signature check. A claim
    that is absent is not checked. *)
Definition validate_sub (body : gmap string value) : option JWTError :=
  match body !! "sub" with
  | Some (VStr _) | None => None
  | Some _ => Some JWTClaimsError
  end.

Definition validate_claims (body : gmap string value) (now : Z) : option JWTError :=
  match body !! "exp" with
  | Some (VNum e) =>
      if expired e now then Some ExpiredSignatureError else validate_sub body
  | Some _ => Some JWTClaimsError
  | None => validate_sub body
  end.

(** [jwt.decode(token, key, algorithms=algorithms)] at clock [now]:
    [inr claims] on success, [inl e] when it raises [e]. *)
Definition decode (t : token) (key : string) (algorithms : list string)
    (now : Z) : JWTError + gmap string value :=
  match t with
  | Unparseable _ => inl MalformedToken
  | Compact alg body tag =>
      if verifies key algorithms t then
        match validate_claims body now with
        | Some e => inl e
        | None => inr body
        end
      else inl InvalidSignature
  end.

(** The claims a token string carries, when it parses. *)
Definition claims_of (t : token) : option (gmap string value) :=
  match t with
  | Compact _ body _ => Some body
  | Unparseable _ => None
  end.


(** The clock is not past the expiry the claims carry; claims without an
    [exp] never expire, and an [exp] that is not a date is never in
    force. *)
Definition not_expired (body : gmap string value) (now : Z) : Prop :=
  match body !! "exp" with
  | Some (VNum e) => now ≤ e
  | Some _ => False
  | None => True
  end.

(** The subject the claims name. *)
Definition subject (body : gmap string value) : option string :=
  match body !! "sub" with
  | Some (VStr s) => Some s
  | _ => None
  end.

End Jose.

(** ** passlib: [CryptContext(schemes=["sha256_crypt"])] *)

Module Passlib.

(** A salted hash, kept symbolic: the digest of [secret] under [salt]
    stands for itself, so distinct inputs have distinct digests. *)
Record crypt_hash := Crypt {
  crypt_salt : string;
  crypt_secret : string
}.

#[export] Instance crypt_hash_eq_dec : EqDecision crypt_hash.
Proof. solve_decision. Defined.

(** The secrets the handler takes: passlib refuses one of more than 4096
    characters ([PasswordSizeError]) and [sha256_crypt] one that holds a NUL
    character ([NullPasswordError]); both are [ValueError]s. *)
Definition usable (secret : string) : bool :=
  bool_decide (String.length secret ≤ 4096)%nat
  && forallb (λ c, negb (Ascii.eqb c Ascii.zero)) (String.list_ascii_of_string secret).

(** [pwd_context.hash(secret)]; the salt is drawn by the library. [None]
    stands for the [ValueError] of a secret the handler does not take. *)
Definition hash (salt secret : string) : option crypt_hash :=
  if usable secret then Some (Crypt salt secret) else None.

(** [pwd_context.verify(secret, h)]: hash [secret] again with the salt
    stored in [h] and compare. [None] stands for the [ValueError]. *)
Definition verify (secret : string) (h : crypt_hash) : option bool :=
  if usable secret then Some (bool_decide (Crypt (crypt_salt h) secret = h))
  else None.

End Passlib.

(** ** Exceptions and results *)

Inductive exn :=
| HTTPException (status_code : Z) (detail : string) (headers : gmap string string)
| JWTError (e : Jose.JWTError)
| TypeError
| ValueError
| WebSocketDisconnect
| TransportError.

Inductive result (A : Type) :=
| Return (a : A)
| Raise (e : exn).

Arguments Return {A} a.
Arguments Raise {A} e.

#[export] Instance result_ret : MRet result := λ A a, Return a.

#[export] Instance result_bind : MBind result := λ A B k m,
  match m with
  | Return a => k a
  | Raise e => Raise e
  end.

(** [try: body except JWTError: handler] *)
Definition try_except_JWTError {A} (body : result A) (handler : result A) : result A :=
  match body with
  | Raise (JWTError _) => handler
  | other => other
  end.

(** [jwt.decode] as a raising call. *)
Definition jwt_decode (t : Jose.token) (key : string) (algorithms : list string)
    (now : Z) : result (gmap string Jose.value) :=
  match Jose.decode t key algorithms now with
  | inl e => Raise (JWTError e)
  | inr payload => Return payload
  end.

(** Whether a [str] is made of ASCII characters only. *)
Definition is_ascii (s : string) : bool :=
  forallb (λ c, (Ascii.nat_of_ascii c <? 128)%nat) (String.list_ascii_of_string s).

(** [secrets.compare_digest(a, b)] on two [str]: equality, and a
    [TypeError] when one of them has a non-ASCII character. *)
Definition compare_digest (a b : string) : result bool :=
  if is_ascii a && is_ascii b then Return (bool_decide (a = b))
  else Raise TypeError.

(** [pwd_context.hash] and [pwd_context.verify] as raising calls. *)
Definition pwd_context_hash (salt secret : string) : result Passlib.crypt_hash :=
  match Passlib.hash salt secret with
  | Some hashed => Return hashed
  | None => Raise ValueError
  end.

Definition pwd_context_verify (secret : string) (hashed : Passlib.crypt_hash)
    : result bool :=
  match Passlib.verify secret hashed with
  | Some verified => Return verified
  | None => Raise ValueError
  end.

(** [status.HTTP_401_UNAUTHORIZED], [status.HTTP_404_NOT_FOUND],
    [status.WS_1008_POLICY_VIOLATION] *)
Definition HTTP_401_UNAUTHORIZED : Z := 401.
Definition HTTP_404_NOT_FOUND : Z := 404.
Definition WS_1008_POLICY_VIOLATION : Z := 1008.

(** ** Module constants *)

Definition SECRET_KEY : string := "test".
Definition ALGORITHM : string := "HS256".
Definition ACCESS_TOKEN_EXPIRE_MINUTES : Z := 30.

(** [timedelta(minutes=m)], in seconds. *)
Definition timedelta_minutes (m : Z) : Z := 60 * m.

(** The headers every error response of the module carries. *)
Definition bearer_headers : gmap string string := {[ "WWW-Authenticate" := "Bearer" ]}.

(** [credentials_exception] of [get_access] and [get_websocket_access]. *)
Definition credentials_exception : exn :=
  HTTPException HTTP_401_UNAUTHORIZED "Could not validate credentials" bearer_headers.

(** [Union[str, bool]], the return type of [authenticate_user]. *)
Inductive str_or_bool :=
| Str (s : string)
| Bool (b : bool).

(** Python truthiness of a [Union[str, bool]]: [False] and the empty string
    are falsy. *)
Definition truthy (v : str_or_bool) : bool :=
  match v with
  | Str s => negb (bool_decide (s = EmptyString))
  | Bool b => b
  end.

(** The JSON value a [Union[str, bool]] is serialised to. *)
Definition to_json (v : str_or_bool) : Jose.value :=
  match v with
  | Str s => Jose.VStr s
  | Bool b => Jose.VBool b
  end.

(** The response model [Token]. *)
Record Token := {
  access_token : Jose.token;
  token_type : string
}.

(** ** Trading objects and the RPC client

    Of [vnpy.trader.object] the routes read a few attributes; the list
    queries hand every object to [to_dict], which reads its [__dict__]. *)

Inductive attr :=
| Enum (value : string)       (* an [Enum] member, with its [.value] *)
| Datetime (text : string)    (* a [datetime], with its [str()] *)
| Plain (v : string).         (* any other value *)

(** [to_dict] *)
Definition to_dict (o : gmap string attr) : gmap string string :=
  (λ v, match v with
        | Enum value => value
        | Datetime text => text
        | Plain v => v
        end) <$> o.

Record ContractData := {
  contract_symbol : string;
  contract_exchange : string;
  contract_gateway_name : string
}.

Record SubscribeRequest := {
  sub_symbol : string;
  sub_exchange : string
}.

(** [OrderRequestModel]; the [OrderRequest] built from its [__dict__] has
    the same fields. [volume] and [price] are carried through unread. *)
Record OrderRequestModel := {
  req_symbol : string;
  req_exchange : string;
  req_direction : string;
  req_type : string;
  req_volume : string;
  req_price : string;
  req_offset : string;
  req_reference : string
}.

(** [OrderRequest.vt_symbol] *)
Definition vt_symbol (req : OrderRequestModel) : string :=
  req_symbol req +:+ "." +:+ req_exchange req.

Record OrderData := {
  order_symbol : string;
  order_exchange : string;
  order_orderid : string;
  order_gateway_name : string
}.

Record CancelRequest := {
  cancel_orderid : string;
  cancel_symbol : string;
  cancel_exchange : string
}.

(** [OrderData.create_cancel_request] *)
Definition create_cancel_request (o : OrderData) : CancelRequest :=
  {| cancel_orderid := order_orderid o;
     cancel_symbol := order_symbol o;
     cancel_exchange := order_exchange o |}.

(** What the backend answers to each remote call. *)
Record RpcClient := {
  rpc_get_contract : string → option ContractData;
  rpc_get_order : string → option OrderData;
  rpc_order_id : OrderRequestModel → string → string;
  rpc_all_ticks : list (gmap string attr);
  rpc_all_orders : list (gmap string attr);
  rpc_all_trades : list (gmap string attr);
  rpc_all_positions : list (gmap string attr);
  rpc_all_accounts : list (gmap string attr);
  rpc_all_contracts : list (gmap string attr)
}.

(** The calls made on [rpc_client]. *)
Inductive rpc_call :=
| get_contract (vt_symbol : string)
| rpc_subscribe (req : SubscribeRequest) (gateway_name : string)
| rpc_send_order (req : OrderRequestModel) (gateway_name : string)
| get_order (vt_orderid : string)
| rpc_cancel_order (req : CancelRequest) (gateway_name : string)
| get_all_ticks_call
| get_all_orders_call
| get_all_trades_call
| get_all_positions_call
| get_all_accounts_call
| get_all_contracts_call.

(** Code that may raise and acts on a state [S]: the log of backend calls for
    a route, the websockets and their registry for the push channel. *)
Definition stateful (S A : Type) : Type := S → result A * S.

#[export] Instance stateful_ret {S} : MRet (stateful S) := λ A a s, (Return a, s).

#[export] Instance stateful_bind {S} : MBind (stateful S) := λ A B k m s,
  match m s with
  | (Return a, s') => k a s'
  | (Raise e, s') => (Raise e, s')
  end.

Definition lift {S A} (r : result A) : stateful S A := λ s, (r, s).

Definition raise {S A} (e : exn) : stateful S A := lift (Raise e).

(** A route handler leaves a log of the calls it made on the backend. *)
Abbreviation handler := (stateful (list rpc_call)).

(** A remote call with its answer. *)
Definition call {A} (c : rpc_call) (answer : A) : handler A :=
  λ log, (Return answer, log ++ [c]).

(** What a route returns. *)
Inductive response :=
| NoBody
| Text (s : string)
| Records (l : list (gmap string string)).

(** The routes declared with [access: bool = Depends(get_access)]. *)
Inductive route :=
| POST_tick (vt_symbol : string)
| GET_tick
| POST_order (model : OrderRequestModel)
| DELETE_order (vt_orderid : string)
| GET_order
| GET_trade
| GET_position
| GET_account
| GET_contract.

(** ** Websockets and the registry [active_websockets]

    A [WebSocket] object is known by its identity, here its position in
    [sockets]: every connection gets a fresh object. [task] says where the
    [websocket_endpoint] coroutine serving it stands. *)

Inductive coroutine :=
| Pending      (* the dependency is being resolved *)
| Receiving    (* inside [while True: await websocket.receive_text()] *)
| Finished.    (* returned, or ended by an exception *)

#[export] Instance coroutine_eq_dec : EqDecision coroutine.
Proof. solve_decision. Defined.

Record WebSocket := {
  accepted : bool;              (* [accept()] was called *)
  close_code : option Z;        (* the code [close(code=...)] was called with *)
  sent : list string;           (* the texts delivered by [send_text], oldest first *)
  transport_up : bool;          (* the peer can still be written to *)
  task : coroutine
}.

Record world := {
  sockets : list WebSocket;
  active_websockets : list nat
}.

Abbreviation async := (stateful world).

Definition new_websocket : WebSocket :=
  {| accepted := false; close_code := None; sent := []; transport_up := true;
     task := Pending |}.

Definition on_socket (ws : nat) (f : WebSocket → WebSocket) : async () := λ w,
  (Return (), {| sockets := alter f ws (sockets w);
                 active_websockets := active_websockets w |}).

(** [await websocket.close(code=code)] *)
Definition websocket_close (ws : nat) (code : Z) : async () :=
  on_socket ws (λ s, {| accepted := accepted s; close_code := Some code;
                        sent := sent s; transport_up := transport_up s;
                        task := task s |}).

(** [await websocket.accept()] *)
Definition websocket_accept (ws : nat) : async () :=
  on_socket ws (λ s, {| accepted := true; close_code := close_code s;
                        sent := sent s; transport_up := transport_up s;
                        task := task s |}).

(** [await websocket.send_text(msg)]: delivers [msg], or raises when the
    transport is gone. *)
Definition websocket_send_text (ws : nat) (msg : string) : async () := λ w,
  match sockets w !! ws with
  | Some s =>
      if transport_up s then
        on_socket ws (λ s, {| accepted := accepted s; close_code := close_code s;
                              sent := sent s ++ [msg];
                              transport_up := transport_up s; task := task s |}) w
      else (Raise TransportError, w)
  | None => (Raise TransportError, w)
  end.

(** What the peer does next on its side of the connection. *)
Inductive incoming :=
| Frame (text : string)
| Disconnect.

(** [await websocket.receive_text()] when the peer does [m]. *)
Definition websocket_receive_text (m : incoming) : async string :=
  match m with
  | Frame text => mret text
  | Disconnect => raise WebSocketDisconnect
  end.

Definition set_task (ws : nat) (c : coroutine) : async () :=
  on_socket ws (λ s, {| accepted := accepted s; close_code := close_code s;
                        sent := sent s; transport_up := transport_up s;
                        task := c |}).

(** [list.remove(x)]: drops the first occurrence, [None] for [ValueError]. *)
Fixpoint list_remove (x : nat) (l : list nat) : option (list nat) :=
  match l with
  | [] => None
  | y :: l' => if decide (x = y) then Some l' else cons y <$> list_remove x l'
  end.

(** [active_websockets.append(websocket)] *)
Definition registry_append (ws : nat) : async () := λ w,
  (Return (), {| sockets := sockets w;
                 active_websockets := active_websockets w ++ [ws] |}).

(** [active_websockets.remove(websocket)] *)
Definition registry_remove (ws : nat) : async () := λ w,
  match list_remove ws (active_websockets w) with
  | Some l => (Return (), {| sockets := sockets w; active_websockets := l |})
  | None => (Raise ValueError, w)
  end.

(** [try: body except WebSocketDisconnect: handler] *)
Definition try_except_WebSocketDisconnect {A} (body handler : async A) : async A := λ w,
  match body w with
  | (Raise WebSocketDisconnect, w') => handler w'
  | other => other
  end.

(** The texts [ws] has been sent so far. *)
Definition outbox (w : world) (ws : nat) : list string :=
  match sockets w !! ws with
  | Some s => sent s
  | None => []
  end.

(** Where the coroutine serving [ws] stands. *)
Definition task_of (w : world) (ws : nat) : coroutine :=
  match sockets w !! ws with
  | Some s => task s
  | None => Finished
  end.

(** The coroutine of one [websocket_broadcast(msg)]: its message and the
    position its [for] loop has come to in [active_websockets]. The loop
    reads the list itself, by position, each time it asks for the next
    websocket. *)
Record broadcast_task := {
  task_msg : string;
  task_next : nat
}.

(** One turn of the [for] loop of [websocket_broadcast]: the next entry of
    the registry as it is now, if there is one, and [send_text] awaited on
    it. [None] when the loop is over; a [send_text] that raises ends the
    coroutine. *)
Definition broadcast_turn (b : broadcast_task) : async (option broadcast_task) := λ w,
  match active_websockets w !! task_next b with
  | None => (Return None, w)
  | Some websocket =>
      match websocket_send_text websocket (task_msg b) w with
      | (Return _, w) =>
          (Return (Some {| task_msg := task_msg b; task_next := S (task_next b) |}), w)
      | (Raise e, w) => (Raise e, w)
      end
  end.

(** [websocket_broadcast] when nothing else runs while it is suspended in
    its sends: the registry is then the same at every turn, and the [for]
    loop goes through it from first to last; a [send_text] that raises ends
    it. *)
Fixpoint broadcast_loop (targets : list nat) (msg : string) : async () :=
  match targets with
  | [] => mret ()
  | websocket :: rest =>
      _ ← websocket_send_text websocket msg;
      broadcast_loop rest msg
  end.

Definition websocket_broadcast (msg : string) : async () := λ w,
  broadcast_loop (active_websockets w) msg w.

(** [rpc_callback], given the serialised message: nothing when the registry
    is empty, otherwise the broadcast is scheduled on the event loop and its
    outcome is not looked at. The broadcast is taken here as run to its end
    with nothing in between; [broadcast_run] below takes it among the other
    coroutines. *)
Definition rpc_callback (msg : string) (w : world) : world :=
  match active_websockets w with
  | [] => w
  | _ => (websocket_broadcast msg w).2
  end.

Section WebService.

(** [setting["username"]] and [setting["password"]], loaded at import. *)
Context (USERNAME PASSWORD : string).

(** [authenticate_user]; [salt] is the salt passlib draws for
    [pwd_context.hash(PASSWORD)]. *)
Definition authenticate_user (salt : string)
    (current_username username password : string) : result str_or_bool :=
  hashed_password ← pwd_context_hash salt PASSWORD;
  same_username ← compare_digest current_username username;
  if negb same_username then Return (Bool false)
  else
    verified ← pwd_context_verify password hashed_password;
    if negb verified then Return (Bool false)
    else Return (Str username).

(** [create_access_token]; [expires_delta] is [None] or a [timedelta], and
    a zero [timedelta] is falsy as [None] is. The sum is the one of
    [datetime] within its range, years 1 to 9999; outside it Python raises
    [OverflowError]. *)
Definition create_access_token (data : gmap string Jose.value)
    (expires_delta : option Z) (utcnow : Z) : Jose.token :=
  let to_encode := data in
  let expire :=
    match expires_delta with
    | Some d => if bool_decide (d = 0) then utcnow + timedelta_minutes 15
                else utcnow + d
    | None => utcnow + timedelta_minutes 15
    end in
  let to_encode := <[ "exp"%string := Jose.VNum expire ]> to_encode in
  Jose.encode to_encode SECRET_KEY ALGORITHM.

(** [get_access], the REST authentication dependency. *)
Definition get_access (token : Jose.token) (now : Z) : result bool :=
  username ←
    try_except_JWTError
      (payload ← jwt_decode token SECRET_KEY [ALGORITHM] now ;
       match payload !! "sub"%string with
       | None => Raise credentials_exception
       | Some username => Return username
       end)
      (Raise credentials_exception);
  match username with
  | Jose.VStr username =>
      same_username ← compare_digest USERNAME username;
      if negb same_username then Raise credentials_exception
      else Return true
  | _ => Raise TypeError
  end.

(** [login]; the form carries the submitted [username] and [password]. *)
Definition login (salt : string) (form_username form_password : string)
    (utcnow : Z) : result Token :=
  web_username ← authenticate_user salt USERNAME form_username form_password;
  if negb (truthy web_username) then
    Raise (HTTPException HTTP_401_UNAUTHORIZED "Incorrect username or password"
             bearer_headers)
  else
    let access_token_expires := timedelta_minutes ACCESS_TOKEN_EXPIRE_MINUTES in
    let access_token :=
      create_access_token {[ "sub"%string := to_json web_username ]}
        (Some access_token_expires) utcnow in
    Return {| access_token := access_token; token_type := "bearer" |}.

(** *** The routes that depend on [get_access] *)

Context (rpc_client : RpcClient).

(** [oauth2_scheme], FastAPI's [OAuth2PasswordBearer]: the bearer token of
    the [Authorization] header, or 401 when the request carries none. *)
Definition oauth2_scheme (authorization : option Jose.token) : result Jose.token :=
  match authorization with
  | Some token => Return token
  | None => Raise (HTTPException HTTP_401_UNAUTHORIZED "Not authenticated" bearer_headers)
  end.

(** [access: bool = Depends(get_access)]: FastAPI resolves the dependency
    before it runs the body of the route. *)
Definition Depends_get_access (authorization : option Jose.token) (now : Z)
    : result bool :=
  token ← oauth2_scheme authorization; get_access token now.

Definition subscribe (vt_symbol : string) : handler response :=
  contract ← call (get_contract vt_symbol) (rpc_get_contract rpc_client vt_symbol);
  match contract with
  | None =>
      raise (HTTPException HTTP_404_NOT_FOUND
               ("Contract " +:+ vt_symbol +:+ " not found.") bearer_headers)
  | Some contract =>
      let req := {| sub_symbol := contract_symbol contract;
                    sub_exchange := contract_exchange contract |} in
      _ ← call (rpc_subscribe req (contract_gateway_name contract)) ();
      mret NoBody
  end.

Definition get_all_ticks : handler response :=
  ticks ← call get_all_ticks_call (rpc_all_ticks rpc_client);
  mret (Records (to_dict <$> ticks)).

Definition send_order (model : OrderRequestModel) : handler response :=
  let req := model in
  contract ← call (get_contract (vt_symbol req))
               (rpc_get_contract rpc_client (vt_symbol req));
  match contract with
  | None =>
      raise (HTTPException HTTP_404_NOT_FOUND
               ("Contract not found " +:+ req_symbol req +:+ " " +:+ req_exchange req)
               bearer_headers)
  | Some contract =>
      vt_orderid ← call (rpc_send_order req (contract_gateway_name contract))
                     (rpc_order_id rpc_client req (contract_gateway_name contract));
      mret (Text vt_orderid)
  end.

Definition cancel_order (vt_orderid : string) : handler response :=
  order ← call (get_order vt_orderid) (rpc_get_order rpc_client vt_orderid);
  match order with
  | None =>
      raise (HTTPException HTTP_404_NOT_FOUND
               ("Delegation " +:+ vt_orderid +:+ " not found.") bearer_headers)
  | Some order =>
      let req := create_cancel_request order in
      _ ← call (rpc_cancel_order req (order_gateway_name order)) ();
      mret NoBody
  end.

Definition get_all_orders : handler response :=
  orders ← call get_all_orders_call (rpc_all_orders rpc_client);
  mret (Records (to_dict <$> orders)).

Definition get_all_trades : handler response :=
  trades ← call get_all_trades_call (rpc_all_trades rpc_client);
  mret (Records (to_dict <$> trades)).

Definition get_all_positions : handler response :=
  positions ← call get_all_positions_call (rpc_all_positions rpc_client);
  mret (Records (to_dict <$> positions)).

Definition get_all_accounts : handler response :=
  accounts ← call get_all_accounts_call (rpc_all_accounts rpc_client);
  mret (Records (to_dict <$> accounts)).

Definition get_all_contracts : handler response :=
  contracts ← call get_all_contracts_call (rpc_all_contracts rpc_client);
  mret (Records (to_dict <$> contracts)).

(** The body FastAPI runs for each authenticated route. *)
Definition route_body (r : route) : handler response :=
  match r with
  | POST_tick vt_symbol => subscribe vt_symbol
  | GET_tick => get_all_ticks
  | POST_order model => send_order model
  | DELETE_order vt_orderid => cancel_order vt_orderid
  | GET_order => get_all_orders
  | GET_trade => get_all_trades
  | GET_position => get_all_positions
  | GET_account => get_all_accounts
  | GET_contract => get_all_contracts
  end.

(** One request to an authenticated route: the dependency, then the body. *)
Definition serve (authorization : option Jose.token) (r : route) (now : Z)
    : handler response :=
  access ← lift (Depends_get_access authorization now);
  route_body r.

(** *** The push channel *)

(** [username is None or not secrets.compare_digest(USERNAME, username)] *)
Definition no_access (username : option Jose.value) : result bool :=
  match username with
  | None => Return true
  | Some (Jose.VStr username) =>
      same_username ← compare_digest USERNAME username;
      Return (negb same_username)
  | Some _ => Raise TypeError
  end.

(** [get_websocket_access] *)
Definition get_websocket_access (websocket : nat) (token : option Jose.token)
    (now : Z) : async bool :=
  match token with
  | None =>
      _ ← websocket_close websocket WS_1008_POLICY_VIOLATION;
      raise credentials_exception
  | Some token =>
      payload ← lift (jwt_decode token SECRET_KEY [ALGORITHM] now);
      let username := payload !! "sub"%string in
      refused ← lift (no_access username);
      if (refused : bool) then
        _ ← websocket_close websocket WS_1008_POLICY_VIOLATION;
        raise credentials_exception
      else mret true
  end.

(** [websocket_endpoint] up to its loop. *)
Definition websocket_endpoint_enter (websocket : nat) : async () :=
  _ ← websocket_accept websocket;
  _ ← registry_append websocket;
  set_task websocket Receiving.

(** One turn of the loop of [websocket_endpoint], when the peer does [m]:
    a text keeps the loop going, a disconnect is caught and ends it. *)
Definition websocket_endpoint_turn (websocket : nat) (m : incoming) : async () :=
  try_except_WebSocketDisconnect
    (_ ← websocket_receive_text m; mret ())
    (_ ← registry_remove websocket; set_task websocket Finished).

(** A client opens [/ws/]: a new [WebSocket], the dependency, then the
    endpoint; an exception of the dependency ends the connection's task
    before the endpoint runs. *)
Definition websocket_route (token : option Jose.token) (now : Z) : async () := λ w,
  let websocket := length (sockets w) in
  let w := {| sockets := sockets w ++ [new_websocket];
              active_websockets := active_websockets w |} in
  match get_websocket_access websocket token now w with
  | (Return _, w) => websocket_endpoint_enter websocket w
  | (Raise e, w) => (Raise e, (set_task websocket Finished w).2)
  end.

(** What happens to the service, one thing at a time on the event loop. *)
Inductive event :=
| Connects (token : option Jose.token) (now : Z)
| Receives (websocket : nat) (m : incoming)
| Publishes (msg : string)
| TransportFails (websocket : nat).

Definition step (w : world) (e : event) : world :=
  match e with
  | Connects token now => (websocket_route token now w).2
  | Receives websocket m =>
      if decide (task_of w websocket = Receiving)
      then (websocket_endpoint_turn websocket m w).2
      else w
  | Publishes msg => rpc_callback msg w
  | TransportFails websocket =>
      (on_socket websocket
         (λ s, {| accepted := accepted s; close_code := close_code s;
                  sent := sent s; transport_up := false; task := task s |}) w).2
  end.

Definition startup : world := {| sockets := []; active_websockets := [] |}.

Definition run (events : list event) : world := foldl step startup events.

(** [websocket_broadcast] as the event loop runs it, from the state [b] of
    its loop: one batch of [schedule] for each turn the loop takes, holding
    what the other coroutines do while the [send_text] of that turn is
    awaited. [None] when the coroutine has not come to its end within the
    schedule. *)
Fixpoint broadcast_run (schedule : list (list event)) (b : broadcast_task)
    (w : world) : option (result () * world) :=
  match schedule with
  | [] => None
  | events :: schedule =>
      match broadcast_turn b w with
      | (Return (Some b), w) => broadcast_run schedule b (foldl step w events)
      | (Return None, w) => Some (Return (), w)
      | (Raise e, w) => Some (Raise e, w)
      end
  end.

End WebService.


(** ** The rest of the repository

    The settings [web.py] reads when it is imported, the engine of
    [engine.py] that serves the backend calls, and the management window of
    [ui/widget.py] that writes the settings and launches the web process. *)

(** [web.py], module level: [setting["username"]], [setting["password"]],
    [setting["req_address"]], [setting["sub_address"]], in that order;
    [None] for the [KeyError] of a missing key. *)
Definition load_web_setting (setting : gmap string string)
    : option (string * string * string * string) :=
  USERNAME ← setting !! "username"%string;
  PASSWORD ← setting !! "password"%string;
  REQ_ADDRESS ← setting !! "req_address"%string;
  SUB_ADDRESS ← setting !! "sub_address"%string;
  Some (USERNAME, PASSWORD, REQ_ADDRESS, SUB_ADDRESS).

(** The name under which [rpc_client] asks for each call: the attribute
    looked up on the client. *)
Definition rpc_name (c : rpc_call) : string :=
  match c with
  | get_contract _ => "get_contract"
  | rpc_subscribe _ _ => "subscribe"
  | rpc_send_order _ _ => "send_order"
  | get_order _ => "get_order"
  | rpc_cancel_order _ _ => "cancel_order"
  | get_all_ticks_call => "get_all_ticks"
  | get_all_orders_call => "get_all_orders"
  | get_all_trades_call => "get_all_trades"
  | get_all_positions_call => "get_all_positions"
  | get_all_accounts_call => "get_all_accounts"
  | get_all_contracts_call => "get_all_contracts"
  end.

(** [vnpy.rpc.RpcServer], as far as [engine.py] drives it: the functions it
    serves, by name, whether it runs, and the addresses it was started on. *)
Module Rpc.

Record RpcServer := {
  functions : gset string;
  active : bool;
  addresses : option (string * string)
}.

(** [RpcServer()] *)
Definition new : RpcServer :=
  {| functions := ∅; active := false; addresses := None |}.

(** [server.register(func)]: stored under [func.__name__]. *)
Definition register (name : string) (s : RpcServer) : RpcServer :=
  {| functions := {[ name ]} ∪ functions s; active := active s;
     addresses := addresses s |}.

(** [server.is_active()] *)
Definition is_active (s : RpcServer) : bool := active s.

(** [server.start(rep_address, pub_address)] *)
Definition start (rep_address pub_address : string) (s : RpcServer) : RpcServer :=
  if active s then s
  else {| functions := functions s; active := true;
          addresses := Some (rep_address, pub_address) |}.

(** [server.stop()]; [server.join()] waits and changes nothing here. *)
Definition stop (s : RpcServer) : RpcServer :=
  if active s
  then {| functions := functions s; active := false; addresses := addresses s |}
  else s.

End Rpc.

(** [WebEngine.init_server] *)
Definition init_server (server : Rpc.RpcServer) : Rpc.RpcServer :=
  let server := Rpc.register "connect" server in
  let server := Rpc.register "subscribe" server in
  let server := Rpc.register "send_order" server in
  let server := Rpc.register "cancel_order" server in
  let server := Rpc.register "get_contract" server in
  let server := Rpc.register "get_order" server in
  let server := Rpc.register "get_all_ticks" server in
  let server := Rpc.register "get_all_orders" server in
  let server := Rpc.register "get_all_trades" server in
  let server := Rpc.register "get_all_positions" server in
  let server := Rpc.register "get_all_accounts" server in
  Rpc.register "get_all_contracts" server.

(** [WebEngine.__init__], for the server it builds. *)
Definition WebEngine : Rpc.RpcServer := init_server Rpc.new.

(** [WebEngine.start_server] *)
Definition start_server (rep_address pub_address : string) (server : Rpc.RpcServer)
    : Rpc.RpcServer :=
  if Rpc.is_active server then server
  else Rpc.start rep_address pub_address server.

(** [WebEngine.close] *)
Definition close (server : Rpc.RpcServer) : Rpc.RpcServer := Rpc.stop server.

(** The widgets of [WebManager] that are enabled and disabled. *)
Inductive widget :=
| Username_line | Password_line | Req_line | Sub_line | Host_line | Port_line
| Start_button | End_button.

#[export] Instance widget_eq_dec : EqDecision widget.
Proof. solve_decision. Defined.

(** [WebManager]: the text of its six lines, which widgets are enabled, the
    log pane, and the command of the child process once [start] made one. *)
Record WebManager := {
  username_line : string;
  password_line : string;
  req_line : string;
  sub_line : string;
  host_line : string;
  port_line : string;
  enabled : widget → bool;
  text_edit : list string;
  process : option (list string)
}.

(** The window with what it acts on: the settings file, as [load_json]
    reads it (empty when there is none), and the engine's server. *)
Record desktop := {
  manager : WebManager;
  setting_file : gmap string string;
  web_engine : Rpc.RpcServer
}.

(** [w.setEnabled(b)] *)
Definition setEnabled (w : widget) (b : bool) (enabled : widget → bool)
    : widget → bool :=
  λ x, if decide (x = w) then b else enabled x.

(** [WebManager.init_ui], given the settings [load_json] returned. *)
Definition init_ui (setting : gmap string string) : WebManager :=
  {| username_line := default "vnpy" (setting !! "username"%string);
     password_line := default "vnpy" (setting !! "password"%string);
     req_line := default "tcp://127.0.0.1:2014" (setting !! "req_address"%string);
     sub_line := default "tcp://127.0.0.1:4102" (setting !! "sub_address"%string);
     host_line := default "127.0.0.1" (setting !! "host"%string);
     port_line := default "8000" (setting !! "port"%string);
     enabled := setEnabled End_button false (λ _, true);
     text_edit := [];
     process := None |}.

(** [WebManager.start] *)
Definition start (d : desktop) : desktop :=
  let m := manager d in
  let username := username_line m in
  let password := password_line m in
  let req_address := req_line m in
  let sub_address := sub_line m in
  let host := host_line m in
  let port := port_line m in
  let setting : gmap string string :=
    <[ "username"%string := username ]>
      (<[ "password"%string := password ]>
         (<[ "req_address"%string := req_address ]>
            (<[ "sub_address"%string := sub_address ]>
               (<[ "host"%string := host ]>
                  (<[ "port"%string := port ]> ∅))))) in
  let cmd := [ "-muvicorn"; "vnpy_webtrader.web:app";
               "--host=" +:+ host; "--port=" +:+ port ]%string in
  {| manager :=
       {| username_line := username; password_line := password;
          req_line := req_address; sub_line := sub_address;
          host_line := host; port_line := port;
          enabled := setEnabled Start_button false (enabled m);
          text_edit := text_edit m;
          process := Some cmd |};
     setting_file := setting;
     web_engine := start_server req_address sub_address (web_engine d) |}.

(** [WebManager.end]: [None] for the [AttributeError] when no process was
    made; the kill itself shows later, as the [finished] signal. *)
Definition end_ (d : desktop) : option desktop :=
  match process (manager d) with
  | Some _ => Some d
  | None => None
  end.

(** The widgets [web_started] and [web_finished] loop over. *)
Definition inputs : list widget :=
  [Username_line; Password_line; Req_line; Sub_line; Host_line; Port_line;
   Start_button].

Definition with_manager (f : WebManager → WebManager) (d : desktop) : desktop :=
  {| manager := f (manager d); setting_file := setting_file d;
     web_engine := web_engine d |}.

(** [WebManager.web_started] *)
Definition web_started (d : desktop) : desktop :=
  with_manager (λ m,
    {| username_line := username_line m; password_line := password_line m;
       req_line := req_line m; sub_line := sub_line m;
       host_line := host_line m; port_line := port_line m;
       enabled := setEnabled End_button true
                    (foldl (λ en w, setEnabled w false en) (enabled m) inputs);
       text_edit := text_edit m ++ ["Web server started"%string];
       process := process m |}) d.

(** [WebManager.web_finished] *)
Definition web_finished (d : desktop) : desktop :=
  with_manager (λ m,
    {| username_line := username_line m; password_line := password_line m;
       req_line := req_line m; sub_line := sub_line m;
       host_line := host_line m; port_line := port_line m;
       enabled := setEnabled End_button false
                    (foldl (λ en w, setEnabled w true en) (enabled m) inputs);
       text_edit := text_edit m ++ ["Web server stopped"%string];
       process := process m |}) d.

(** The user types [text] into one of the six lines. *)
Definition edit (w : widget) (text : string) (d : desktop) : desktop :=
  with_manager (λ m,
    {| username_line := if decide (w = Username_line) then text else username_line m;
       password_line := if decide (w = Password_line) then text else password_line m;
       req_line := if decide (w = Req_line) then text else req_line m;
       sub_line := if decide (w = Sub_line) then text else sub_line m;
       host_line := if decide (w = Host_line) then text else host_line m;
       port_line := if decide (w = Port_line) then text else port_line m;
       enabled := enabled m; text_edit := text_edit m; process := process m |}) d.

(** What happens to the window: a click reaches its slot only while the
    button is enabled, typing reaches a line only while it is enabled, and
    the signals [started] and [finished] come from a process [start] made. *)
Inductive action :=
| Click_start
| Click_end
| Types (w : widget) (text : string)
| Signal_started
| Signal_finished.

Definition act (d : desktop) (a : action) : desktop :=
  match a with
  | Click_start => if enabled (manager d) Start_button then start d else d
  | Click_end =>
      if enabled (manager d) End_button then default d (end_ d) else d
  | Types w text => if enabled (manager d) w then edit w text d else d
  | Signal_started =>
      match process (manager d) with Some _ => web_started d | None => d end
  | Signal_finished =>
      match process (manager d) with Some _ => web_finished d | None => d end
  end.

(** The window as [WebManager.__init__] opens it on a settings file, beside
    the engine [WebEngine.__init__] built. *)
Definition opened (setting : gmap string string) : desktop :=
  {| manager := init_ui setting; setting_file := setting; web_engine := WebEngine |}.

(** ** Vocabulary of the properties *)

(** Whether [send_text] on [ws] gets through. *)
Definition transport_of (w : world) (ws : nat) : bool :=
  match sockets w !! ws with
  | Some s => transport_up s
  | None => false
  end.

(** The registered websocket on which a broadcast over [targets] raises:
    the first one whose transport is gone. *)
Definition failing_send (w : world) (targets : list nat) : option nat :=
  List.find (λ ws, negb (transport_of w ws)) targets.

(** From [w] to [w'], [msg] went once to each websocket of [delivered] and
    to no other, and nothing else changed. *)
Definition delivered_to (msg : string) (w w' : world) (delivered : list nat) : Prop :=
  active_websockets w' = active_websockets w
  ∧ (∀ c, transport_of w' c = transport_of w c)
  ∧ (∀ c, task_of w' c = task_of w c)
  ∧ ∀ c, outbox w' c = if decide (c ∈ delivered) then outbox w c ++ [msg]
                       else outbox w c.

(** The registry and the coroutines agree: no websocket is registered
    twice, and the registered websockets are those whose endpoint is in its
    receive loop. *)
Definition registry_ok (w : world) : Prop :=
  NoDup (active_websockets w)
  ∧ ∀ ws, ws ∈ active_websockets w ↔ task_of w ws = Receiving.


(** The registry as the design document words it, for sends: the websocket
    on which a broadcast raised is out of the registry once the broadcast
    is over. *)
Definition failed_sends_are_pruned (USERNAME : string) : Prop :=
  ∀ (events : list event) (msg : string) (ws : nat),
    failing_send (run USERNAME events) (active_websockets (run USERNAME events)) = Some ws →
    ws ∉ active_websockets (step USERNAME (run USERNAME events) (Publishes msg)).

(** Verification as the design document words it: the error of a refused
    token tells which of the causes refused it. *)
Definition failure_names_its_cause (USERNAME : string) : Prop :=
  ∃ cause_of : exn → Jose.JWTError,
    ∀ (token : Jose.token) (now : Z) (err : Jose.JWTError),
      Jose.decode token SECRET_KEY [ALGORITHM] now = inl err →
      ∃ e, get_access USERNAME token now = Raise e ∧ cause_of e = err.

(** The handshake as the design document words it: a token that is missing
    or that [jwt.decode] refuses gets the websocket closed with the
    policy-violation code. *)
Definition refused_handshake_is_closed (USERNAME : string) : Prop :=
  ∀ (token : option Jose.token) (now : Z) (w : world),
    (token = None
     ∨ ∃ t err, token = Some t ∧ Jose.decode t SECRET_KEY [ALGORITHM] now = inl err) →
    close_code <$> sockets (websocket_route USERNAME token now w).2 !! length (sockets w)
      = Some (Some WS_1008_POLICY_VIOLATION)
    ∧ outbox (websocket_route USERNAME token now w).2 (length (sockets w)) = []
    ∧ length (sockets w) ∉ active_websockets (websocket_route USERNAME token now w).2.


(** The check of a login as the design document words it: every pair other
    than the configured one gets [False]. *)
Definition other_pairs_get_False (USERNAME PASSWORD : string) : Prop :=
  ∀ salt username password : string,
    ¬ (username = USERNAME ∧ password = PASSWORD) →
    authenticate_user PASSWORD salt USERNAME username password = Return (Bool false).









(** The world a handshake leaves when the dependency let it through. *)
Definition joined (w : world) : world :=
  {| sockets := sockets w ++ [ {| accepted := true; close_code := None; sent := [];
                                  transport_up := true; task := Receiving |} ];
     active_websockets := active_websockets w ++ [length (sockets w)] |}.

(** The world a handshake leaves when the dependency closed the websocket. *)
Definition turned_away (w : world) : world :=
  {| sockets := sockets w ++ [ {| accepted := false;
                                  close_code := Some WS_1008_POLICY_VIOLATION;
                                  sent := []; transport_up := true;
                                  task := Finished |} ];
     active_websockets := active_websockets w |}.

(** The world a handshake leaves when the dependency raised before it
    closed the websocket. *)
Definition left_unanswered (w : world) : world :=
  {| sockets := sockets w ++ [ {| accepted := false; close_code := None;
                                  sent := []; transport_up := true;
                                  task := Finished |} ];
     active_websockets := active_websockets w |}.

(** Whether [ws] was accepted, and the code it was closed with, if any. *)
Definition accepted_of (w : world) (ws : nat) : bool :=
  match sockets w !! ws with
  | Some s => accepted s
  | None => false
  end.

Definition close_code_of (w : world) (ws : nat) : option Z :=
  match sockets w !! ws with
  | Some s => close_code s
  | None => None
  end.

(** What holds of the websockets all along: one that was not accepted has
    been sent nothing; one that was closed was closed with 1008 and was not
    accepted; and the registered ones are accepted. *)
Definition sockets_ok (w : world) : Prop :=
  ∀ ws,
    (accepted_of w ws = false → outbox w ws = [])
    ∧ (∀ code, close_code_of w ws = Some code →
         code = WS_1008_POLICY_VIOLATION ∧ accepted_of w ws = false)
    ∧ (ws ∈ active_websockets w → accepted_of w ws = true).

(** Whether the dependency of the authenticated routes lets a request
    through. *)
Definition granted (USERNAME : string) (authorization : option Jose.token)
    (now : Z) : bool :=
  match Depends_get_access USERNAME authorization now with
  | Return _ => true
  | Raise _ => false
  end.

(** ** Sample data *)

(** The token [login] hands to the user [admin] at [utcnow]. *)
Definition admin_token (utcnow : Z) : Jose.token :=
  create_access_token {[ "sub"%string := Jose.VStr "admin" ]}
    (Some (timedelta_minutes ACCESS_TOKEN_EXPIRE_MINUTES)) utcnow.

(** The same claims under a signature made with another key. *)
Definition forged_token (utcnow : Z) : Jose.token :=
  match admin_token utcnow with
  | Jose.Compact alg body _ => Jose.Compact alg body (Jose.sign alg "guess" body)
  | t => t
  end.

(** A validly signed token that names no subject. *)
Definition anonymous_token : Jose.token :=
  Jose.encode {[ "exp"%string := Jose.VNum 1800 ]} SECRET_KEY ALGORITHM.


(** A username with a non-ASCII character (a-umlaut, then [dmin]), and a
    validly signed token that names it. *)
Definition umlaut_name : string := String (Ascii.ascii_of_nat 228) "dmin".

Definition umlaut_token (utcnow : Z) : Jose.token :=
  create_access_token {[ "sub"%string := Jose.VStr umlaut_name ]}
    (Some (timedelta_minutes ACCESS_TOKEN_EXPIRE_MINUTES)) utcnow.

(** A password that holds a NUL character. *)
Definition nul_password : string := String Ascii.zero "secret".

(** A backend that knows no contract and no order. *)
Definition empty_backend : RpcClient :=
  {| rpc_get_contract := λ _, None;
     rpc_get_order := λ _, None;
     rpc_order_id := λ _ _, "CTP.1"%string;
     rpc_all_ticks := [];
     rpc_all_orders := [];
     rpc_all_trades := [];
     rpc_all_positions := [];
     rpc_all_accounts := [];
     rpc_all_contracts := [] |}.

(** One client connected at time 10, whose transport is then lost. *)
Definition lost_connection : list event :=
  [Connects (Some (admin_token 0)) 10; TransportFails 0%nat].

(** Three clients connected at time 10 with a fresh token; the transport of
    the second is then lost. *)
Definition three_connections : world :=
  run "admin" [Connects (Some (admin_token 0)) 10;
               Connects (Some (admin_token 0)) 10;
               Connects (Some (admin_token 0)) 10;
               TransportFails 1%nat].

(** Three clients connected at time 10 with a fresh token. *)
Definition three_clients : list event :=
  [Connects (Some (admin_token 0)) 10;
   Connects (Some (admin_token 0)) 10;
   Connects (Some (admin_token 0)) 10].

(** What runs between the turns of a broadcast: a fourth client joins
    during the first send; and the first client leaves during the first
    send. *)
Definition a_client_joins : list (list event) :=
  [[Connects (Some (admin_token 0)) 10]; []; []; []; []].

Definition first_client_leaves : list (list event) :=
  [[Receives 0%nat Disconnect]; []; []].

(** Two handshakes, the first with a fresh token and the second without
    one, followed by a broadcast. *)
Definition mixed_handshakes : list event :=
  [Connects (Some (admin_token 0)) 10; Connects None 10; Publishes "tick"].

(** Two clients connect, then the first one disconnects. *)
Definition first_leaves : list event :=
  [Connects (Some (admin_token 0)) 10; Connects (Some (admin_token 0)) 10;
   Receives 0%nat Disconnect].

(** A backend that knows one contract. *)
Definition one_contract_backend : RpcClient :=
  {| rpc_get_contract := λ v,
       if decide (v = "rb2410.SHFE"%string)
       then Some {| contract_symbol := "rb2410"; contract_exchange := "SHFE";
                    contract_gateway_name := "CTP" |}
       else None;
     rpc_get_order := λ _, None;
     rpc_order_id := λ _ gateway_name, (gateway_name +:+ ".1")%string;
     rpc_all_ticks := [];
     rpc_all_orders := [];
     rpc_all_trades := [];
     rpc_all_positions := [];
     rpc_all_accounts := [];
     rpc_all_contracts := [] |}.

(** An order for that contract. *)
Definition sample_order : OrderRequestModel :=
  {| req_symbol := "rb2410"; req_exchange := "SHFE"; req_direction := "LONG";
     req_type := "LIMIT"; req_volume := "1"; req_price := "3500";
     req_offset := "NONE"; req_reference := "" |}.

(** The window after the web process was started once and has ended. *)
Definition after_one_session : desktop :=
  foldl act (opened ∅) [Click_start; Signal_started; Signal_finished].

(** * Properties *)

(** ** The token library *)

Module JoseFacts.
Import Jose.

Lemma expired_spec (e now : Z) : expired e now = true ↔ e < now.
Proof. unfold expired. apply Z.ltb_lt. Qed.

Lemma expired_false (e now : Z) : expired e now = false ↔ now ≤ e.
Proof. unfold expired. apply Z.ltb_ge. Qed.

Lemma validate_sub_None (body : gmap string value) :
  validate_sub body = None ↔
  body !! "sub"%string = None ∨ ∃ s, body !! "sub"%string = Some (VStr s).
Proof.
  unfold validate_sub.
  destruct (body !! "sub"%string) as [[s|n|b]|]; split; intros H;
    try done; eauto; destruct H as [H|[s' H]]; done.
Qed.

Lemma validate_claims_None (body : gmap string value) (now : Z) :
  validate_claims body now = None ↔
  not_expired body now ∧ validate_sub body = None.
Proof.
  unfold validate_claims, not_expired.
  destruct (body !! "exp"%string) as [[s|e|b]|].
  - split; [done | tauto].
  - destruct (expired e now) eqn:He.
    + apply expired_spec in He. split; [done | lia].
    + apply expired_false in He. tauto.
  - split; [done | tauto].
  - tauto.
Qed.

Lemma decode_ok (t : token) (key : string) (algorithms : list string)
    (now : Z) (payload : gmap string value) :
  decode t key algorithms now = inr payload ↔
  claims_of t = Some payload ∧ verifies key algorithms t = true
  ∧ validate_claims payload now = None.
Proof.
  destruct t as [alg body tag|raw]; simpl.
  - destruct (bool_decide (alg ∈ algorithms) && bool_decide (tag = sign alg key body));
      [|split; [done | intros (_ & ? & _); done]].
    destruct (validate_claims body now) as [e|] eqn:Hv.
    + split; [done|]. intros (Hb & _ & Hn). congruence.
    + split.
      * intros [= <-]. done.
      * intros ([= <-] & _ & _). done.
  - split; [done | intros (? & _); done].
Qed.

(** A decoded payload names a subject that is text, or none. *)
Lemma decode_sub (t : token) (key : string) (algorithms : list string)
    (now : Z) (payload : gmap string value) :
  decode t key algorithms now = inr payload →
  payload !! "sub"%string = None ∨ ∃ s, payload !! "sub"%string = Some (VStr s).
Proof.
  intros (_ & _ & Hv)%decode_ok.
  apply validate_claims_None in Hv as [_ Hs]. by apply validate_sub_None.
Qed.


Lemma encode_verifies (claims : gmap string value) (key alg : string) :
  verifies key [alg] (encode claims key alg) = true.
Proof.
  unfold encode, verifies. apply andb_true_intro. split.
  - apply bool_decide_eq_true. set_solver.
  - by apply bool_decide_eq_true.
Qed.

End JoseFacts.

Module PasslibFacts.
Import Passlib.

(** The check of a password against a hash succeeds for the hashed
    password and for no other, and raises on a password the handler does
    not take. *)
Lemma verify_hash (salt secret password : string) (h : crypt_hash) :
  hash salt secret = Some h →
  verify password h
  = if usable password then Some (bool_decide (password = secret)) else None.
Proof.
  unfold hash, verify. destruct (usable secret); [|done]. intros [= <-]. simpl.
  destruct (usable password); [|done]. f_equal.
  apply bool_decide_ext. split; [by intros [= ->] | by intros ->].
Qed.

End PasslibFacts.

(** ** The check of a token *)

Section TokenCheck.

Context (USERNAME : string).

Lemma compare_digest_ascii (a b : string) :
  is_ascii a = true → is_ascii b = true →
  compare_digest a b = Return (bool_decide (a = b)).
Proof. unfold compare_digest. by intros -> ->. Qed.

Lemma compare_digest_non_ascii (a b : string) :
  is_ascii a && is_ascii b = false → compare_digest a b = Raise TypeError.
Proof. unfold compare_digest. by intros ->. Qed.

Lemma compare_digest_true (a b : string) :
  compare_digest a b = Return true ↔ a = b ∧ is_ascii a = true.
Proof.
  unfold compare_digest. destruct (is_ascii a) eqn:Ha; simpl.
  - destruct (is_ascii b) eqn:Hb.
    + split.
      * intros [= H]. by apply bool_decide_eq_true in H.
      * intros [-> _]. by rewrite bool_decide_eq_true_2.
    + split; [done|]. intros [-> _]. congruence.
  - split; [done | by intros [_ ?]].
Qed.

(** [compare_digest] raises nothing but [TypeError]. *)
Lemma compare_digest_Raise (a b : string) (e : exn) :
  compare_digest a b = Raise e → e = TypeError ∧ is_ascii a && is_ascii b = false.
Proof.
  unfold compare_digest. destruct (is_ascii a && is_ascii b); [done|].
  by intros [= <-].
Qed.

(** [get_access] once [jwt.decode] has returned a payload. *)
Lemma get_access_decoded (token : Jose.token) (now : Z)
    (payload : gmap string Jose.value) :
  Jose.decode token SECRET_KEY [ALGORITHM] now = inr payload →
  get_access USERNAME token now =
    match Jose.subject payload with
    | Some username =>
        match compare_digest USERNAME username with
        | Return true => Return true
        | Return false => Raise credentials_exception
        | Raise e => Raise e
        end
    | None => Raise credentials_exception
    end.
Proof.
  intros Hd. pose proof (JoseFacts.decode_sub _ _ _ _ _ Hd) as Hs.
  unfold get_access, jwt_decode, Jose.subject. rewrite Hd. simpl.
  destruct Hs as [-> | [s ->]]; simpl; [done|].
  by destruct (compare_digest USERNAME s) as [[|]|e].
Qed.

(** [get_access] when [jwt.decode] raises: [except JWTError] turns every
    cause into the one [credentials_exception]. *)
Lemma get_access_undecoded (token : Jose.token) (now : Z) (err : Jose.JWTError) :
  Jose.decode token SECRET_KEY [ALGORITHM] now = inl err →
  get_access USERNAME token now = Raise credentials_exception.
Proof.
  intros Hd. unfold get_access, jwt_decode. rewrite Hd. reflexivity.
Qed.

(** [get_access] returns [True], raises [credentials_exception], or lets
    the [TypeError] of [compare_digest] through; nothing else. *)
Lemma get_access_outcomes (token : Jose.token) (now : Z) :
  get_access USERNAME token now = Return true
  ∨ get_access USERNAME token now = Raise credentials_exception
  ∨ get_access USERNAME token now = Raise TypeError.
Proof.
  destruct (Jose.decode token SECRET_KEY [ALGORITHM] now) as [err|payload] eqn:Hd.
  - right. left. by eapply get_access_undecoded.
  - rewrite (get_access_decoded _ _ _ Hd).
    destruct (Jose.subject payload) as [u|]; [|by right; left].
    destruct (compare_digest USERNAME u) as [[|]|e] eqn:Hc;
      [by left | by right; left |].
    apply compare_digest_Raise in Hc as [-> _]. by right; right.
Qed.

Lemma get_access_true (token : Jose.token) (now : Z) :
  get_access USERNAME token now = Return true ↔
  ∃ payload, Jose.decode token SECRET_KEY [ALGORITHM] now = inr payload
             ∧ Jose.subject payload = Some USERNAME
             ∧ is_ascii USERNAME = true.
Proof.
  split.
  - intros Ha.
    destruct (Jose.decode token SECRET_KEY [ALGORITHM] now) as [err|payload] eqn:Hd.
    + rewrite (get_access_undecoded _ _ _ Hd) in Ha. discriminate.
    + exists payload. split; [done|].
      rewrite (get_access_decoded _ _ _ Hd) in Ha.
      destruct (Jose.subject payload) as [u|]; [|discriminate].
      destruct (compare_digest USERNAME u) as [[|]|e] eqn:Hc; try discriminate.
      apply compare_digest_true in Hc as [<- Hu]. done.
  - intros (payload & Hd & Hs & Hu).
    rewrite (get_access_decoded _ _ _ Hd), Hs.
    by rewrite (proj2 (compare_digest_true USERNAME USERNAME)).
Qed.



End TokenCheck.

(** ** Authentication *)

Section Authentication.

Context (USERNAME PASSWORD : string).


(** C10: a token that decodes (valid signature, not expired) and whose
    payload has no [sub] claim is answered 401 by the REST check. *)
Theorem get_access_without_sub (token : Jose.token) (now : Z)
    (payload : gmap string Jose.value) :
  Jose.decode token SECRET_KEY [ALGORITHM] now = inr payload →
  payload !! "sub"%string = None →
  get_access USERNAME token now = Raise credentials_exception.
Proof.
  intros Hd Hs. rewrite (get_access_decoded _ _ _ _ Hd).
  unfold Jose.subject. by rewrite Hs.
Qed.

(** C7, as the code has it: whatever makes [jwt.decode] fail (signature,
    expiry, unparseable token, ill-typed claim), the REST check fails with
    the same [credentials_exception], a 401 whose detail is
    "Could not validate credentials". *)
Theorem get_access_failure_is_uniform (token : Jose.token) (now : Z)
    (err : Jose.JWTError) :
  Jose.decode token SECRET_KEY [ALGORITHM] now = inl err →
  get_access USERNAME token now =
    Raise (HTTPException 401 "Could not validate credentials" bearer_headers).
Proof. apply get_access_undecoded. Qed.

(** What [authenticate_user] does, check by check: the hash of the
    configured password, the comparison of the usernames, then the
    verification of the password, reached when the usernames agree. *)
Lemma authenticate_user_outcome (salt username password : string) :
  authenticate_user PASSWORD salt USERNAME username password =
    if Passlib.usable PASSWORD then
      if is_ascii USERNAME && is_ascii username then
        if bool_decide (username = USERNAME) then
          if Passlib.usable password then
            if bool_decide (password = PASSWORD) then Return (Str USERNAME)
            else Return (Bool false)
          else Raise ValueError
        else Return (Bool false)
      else Raise TypeError
    else Raise ValueError.
Proof.
  unfold authenticate_user, pwd_context_hash.
  destruct (Passlib.hash salt PASSWORD) as [h|] eqn:Hh; unfold Passlib.hash in Hh;
    destruct (Passlib.usable PASSWORD) eqn:Hp; try discriminate Hh; [|done].
  simpl. unfold compare_digest.
  destruct (is_ascii USERNAME && is_ascii username); [|done]. simpl.
  destruct (decide (username = USERNAME)) as [->|Hne].
  - rewrite !bool_decide_eq_true_2 by done. simpl.
    unfold pwd_context_verify.
    rewrite (PasslibFacts.verify_hash salt PASSWORD password h)
      by (unfold Passlib.hash; by rewrite Hp).
    destruct (Passlib.usable password); [|done]. simpl.
    by case_bool_decide.
  - rewrite !bool_decide_eq_false_2 by congruence. done.
Qed.

(** On ASCII usernames and passwords the handler takes, [authenticate_user]
    returns the configured username for the configured pair and [False]
    for every other. *)
Lemma authenticate_user_on_ascii (salt username password : string) :
  Passlib.usable PASSWORD = true → is_ascii USERNAME = true →
  is_ascii username = true → Passlib.usable password = true →
  authenticate_user PASSWORD salt USERNAME username password =
    if bool_decide (username = USERNAME ∧ password = PASSWORD)
    then Return (Str USERNAME) else Return (Bool false).
Proof.
  intros Hp Hu Hu' Hp'. rewrite authenticate_user_outcome, Hp, Hu, Hu', Hp'. simpl.
  destruct (decide (username = USERNAME)) as [->|Hne].
  - rewrite bool_decide_eq_true_2 by done.
    destruct (decide (password = PASSWORD)) as [->|Hne].
    + by rewrite !bool_decide_eq_true_2.
    + rewrite (bool_decide_eq_false_2 (password = PASSWORD)) by done.
      rewrite bool_decide_eq_false_2; [done | tauto].
  - rewrite (bool_decide_eq_false_2 (username = USERNAME)) by done.
    rewrite bool_decide_eq_false_2; [done | tauto].
Qed.

(** *** Issued tokens *)




(** What [login] does, check by check. *)
Lemma login_outcome (salt username password : string) (utcnow : Z) :
  login USERNAME PASSWORD salt username password utcnow =
    if Passlib.usable PASSWORD then
      if is_ascii USERNAME && is_ascii username then
        if bool_decide (username = USERNAME) then
          if Passlib.usable password then
            if bool_decide (password = PASSWORD ∧ USERNAME ≠ EmptyString)
            then Return {| access_token :=
                             create_access_token {[ "sub"%string := Jose.VStr USERNAME ]}
                               (Some (timedelta_minutes ACCESS_TOKEN_EXPIRE_MINUTES)) utcnow;
                           token_type := "bearer" |}
            else Raise (HTTPException HTTP_401_UNAUTHORIZED
                          "Incorrect username or password" bearer_headers)
          else Raise ValueError
        else Raise (HTTPException HTTP_401_UNAUTHORIZED
                      "Incorrect username or password" bearer_headers)
      else Raise TypeError
    else Raise ValueError.
Proof.
  unfold login. rewrite authenticate_user_outcome.
  destruct (Passlib.usable PASSWORD); [|done].
  destruct (is_ascii USERNAME && is_ascii username); [|done].
  destruct (bool_decide (username = USERNAME)); [|done].
  destruct (Passlib.usable password); [|done].
  destruct (decide (password = PASSWORD)) as [->|Hne].
  - rewrite bool_decide_eq_true_2 by done. simpl.
    destruct (decide (USERNAME = EmptyString)) as [Hu|Hu].
    + rewrite (bool_decide_eq_true_2 _ Hu). simpl.
      rewrite bool_decide_eq_false_2; [done | tauto].
    + rewrite (bool_decide_eq_false_2 _ Hu). simpl.
      rewrite bool_decide_eq_true_2; [done | tauto].
  - rewrite (bool_decide_eq_false_2 _ Hne). simpl.
    rewrite bool_decide_eq_false_2; [done | tauto].
Qed.

(** What is known when [login] has returned a token. *)
Lemma login_Return (salt username password : string) (utcnow : Z) (tok : Token) :
  login USERNAME PASSWORD salt username password utcnow = Return tok →
  tok = {| access_token :=
             create_access_token {[ "sub"%string := Jose.VStr USERNAME ]}
               (Some (timedelta_minutes ACCESS_TOKEN_EXPIRE_MINUTES)) utcnow;
           token_type := "bearer" |}
  ∧ is_ascii USERNAME = true
  ∧ username = USERNAME ∧ password = PASSWORD ∧ USERNAME ≠ EmptyString.
Proof.
  rewrite login_outcome.
  destruct (Passlib.usable PASSWORD); [|done].
  destruct (is_ascii USERNAME) eqn:Hu; [|done]. simpl.
  destruct (is_ascii username); [|done].
  case_bool_decide as Hn; [|done].
  destruct (Passlib.usable password); [|done].
  case_bool_decide as Hp; [|done].
  intros [= <-]. tauto.
Qed.

(** C8: a token that [login] issues carries, as its [exp] claim, the time
    of issue plus 30 minutes, names the configured username as [sub], and
    is signed with [SECRET_KEY] under [ALGORITHM]. *)
Theorem login_token_expiry (salt username password : string) (utcnow : Z)
    (tok : Token) :
  login USERNAME PASSWORD salt username password utcnow = Return tok →
  ∃ body,
    access_token tok = Jose.Compact ALGORITHM body (Jose.sign ALGORITHM SECRET_KEY body)
    ∧ body !! "exp"%string = Some (Jose.VNum (utcnow + 30 * 60))
    ∧ body !! "sub"%string = Some (Jose.VStr USERNAME)
    ∧ token_type tok = "bearer"%string.
Proof.
  intros (-> & _)%login_Return. simpl.
  eexists. split; [reflexivity|]. split; [|split; [|done]].
  - rewrite lookup_insert_eq. do 2 f_equal.
  - rewrite lookup_insert_ne by done. apply lookup_singleton_eq.
Qed.

(** *** Authenticated routes *)

Context (rpc_client : RpcClient).

Lemma serve_refused (authorization : option Jose.token) (r : route) (now : Z)
    (log : list rpc_call) (e : exn) :
  Depends_get_access USERNAME authorization now = Raise e →
  serve USERNAME rpc_client authorization r now log = (Raise e, log).
Proof.
  intros Ha. unfold serve, mbind, stateful_bind, lift. by rewrite Ha.
Qed.

Lemma serve_granted (authorization : option Jose.token) (r : route) (now : Z)
    (log : list rpc_call) (b : bool) :
  Depends_get_access USERNAME authorization now = Return b →
  serve USERNAME rpc_client authorization r now log = route_body rpc_client r log.
Proof.
  intros Ha. unfold serve, mbind, stateful_bind, lift. by rewrite Ha.
Qed.


End Authentication.

(** ** The push channel *)

Section Websockets.

Implicit Types (w : world) (ws c : nat) (msg : string).

Lemma on_socket_registry ws f w :
  active_websockets (on_socket ws f w).2 = active_websockets w.
Proof. reflexivity. Qed.

Lemma on_socket_lookup ws f w :
  sockets (on_socket ws f w).2 !! ws = f <$> sockets w !! ws.
Proof. simpl. apply list_lookup_alter_eq. Qed.

Lemma on_socket_lookup_ne ws f w c :
  c ≠ ws → sockets (on_socket ws f w).2 !! c = sockets w !! c.
Proof. intros Hne. simpl. by apply list_lookup_alter_ne. Qed.

(** A change to one websocket that keeps a field keeps it everywhere. *)
Lemma on_socket_keeps {A} (field : WebSocket → A) (dflt : A) ws f w c :
  (∀ s, field (f s) = field s) →
  match sockets (on_socket ws f w).2 !! c with Some s => field s | None => dflt end
  = match sockets w !! c with Some s => field s | None => dflt end.
Proof.
  intros Hf. destruct (decide (c = ws)) as [->|Hne].
  - rewrite on_socket_lookup. destruct (sockets w !! ws); simpl; [apply Hf | done].
  - by rewrite on_socket_lookup_ne.
Qed.

Lemma send_text_down ws msg w :
  transport_of w ws = false →
  websocket_send_text ws msg w = (Raise TransportError, w).
Proof.
  unfold transport_of, websocket_send_text.
  destruct (sockets w !! ws) as [s|]; [|done]. by intros ->.
Qed.

Lemma send_text_up ws msg w :
  transport_of w ws = true →
  ∃ w', websocket_send_text ws msg w = (Return (), w')
        ∧ delivered_to msg w w' [ws].
Proof.
  unfold transport_of, websocket_send_text.
  destruct (sockets w !! ws) as [s|] eqn:Hs; [|done]. intros ->.
  match goal with |- context [on_socket ws ?f w] => exists (on_socket ws f w).2 end.
  split; [reflexivity|]. split; [done|].
  split; [|split].
  - intros c. unfold transport_of. by apply (on_socket_keeps transport_up false).
  - intros c. unfold task_of. by apply (on_socket_keeps task Finished).
  - intros c. unfold outbox. case_decide as Hc.
    + apply list_elem_of_singleton in Hc as ->.
      rewrite on_socket_lookup, Hs. done.
    + rewrite on_socket_lookup_ne; [done|]. intros ->. apply Hc. set_solver.
Qed.

(** The loop of the broadcast: it delivers to the targets in order as long
    as the sends get through, and stops at the first that does not. *)
Lemma broadcast_loop_spec (targets : list nat) msg w :
  NoDup targets →
  ∃ delivered rest,
    targets = delivered ++ rest
    ∧ Forall (λ c, transport_of w c = true) delivered
    ∧ match rest with
      | [] => (broadcast_loop targets msg w).1 = Return ()
      | c :: _ => transport_of w c = false
                  ∧ (broadcast_loop targets msg w).1 = Raise TransportError
      end
    ∧ delivered_to msg w (broadcast_loop targets msg w).2 delivered.
Proof.
  revert w. induction targets as [|ws l IH]; intros w Hnd.
  - exists [], []. repeat split; try done;
      intros c; by rewrite decide_False by set_solver.
  - apply NoDup_cons in Hnd as [Hws Hl]. simpl.
    unfold mbind, stateful_bind.
    destruct (transport_of w ws) eqn:Hup.
    + destruct (send_text_up ws msg w Hup) as (w1 & -> & Hreg & Htr & Htask & Hout).
      destruct (IH w1 Hl) as (delivered & rest & -> & Hall & Hrest & Hd).
      destruct Hd as (Hreg' & Htr' & Htask' & Hout').
      exists (ws :: delivered), rest. split; [done|]. split; [|split].
      * constructor; [done|]. eapply Forall_impl; [exact Hall|].
        intros c. simpl. by rewrite Htr.
      * destruct rest as [|c rest]; [done|]. by rewrite <- Htr.
      * split; [congruence|]. split; [intros c; by rewrite Htr', Htr|].
        split; [intros c; by rewrite Htask', Htask|].
        intros c. rewrite Hout', Hout.
        destruct (decide (c = ws)) as [->|Hne].
        -- apply not_elem_of_app in Hws as [Hws _].
           rewrite decide_False by done.
           rewrite decide_True by (by apply list_elem_of_singleton).
           rewrite decide_True by (apply elem_of_cons; by left). done.
        -- rewrite (decide_False (P := c ∈ [ws]))
             by (by rewrite list_elem_of_singleton).
           destruct (decide (c ∈ delivered)) as [Hin|Hnin].
           ++ by rewrite decide_True by (apply elem_of_cons; by right).
           ++ by rewrite decide_False by (rewrite not_elem_of_cons; done).
    + rewrite (send_text_down ws msg w Hup). simpl.
      exists [], (ws :: l). repeat split; try done;
        intros c; by rewrite decide_False by set_solver.
Qed.

(** A broadcast during which nothing else runs writes to the registered
    websockets in registry order. While the sends get through, each
    websocket receives one copy; the first send that fails raises out of
    the broadcast, so that websocket and those registered after it receive
    nothing. When no send fails every registered websocket has received
    exactly one copy and the broadcast returns. *)
Lemma websocket_broadcast_delivery w msg :
  NoDup (active_websockets w) →
  ∃ delivered rest,
    active_websockets w = delivered ++ rest
    ∧ (∀ c, c ∈ delivered → transport_of w c = true)
    ∧ match rest with
      | [] => (websocket_broadcast msg w).1 = Return ()
      | c :: _ => transport_of w c = false
                  ∧ (websocket_broadcast msg w).1 = Raise TransportError
      end
    ∧ (∀ c, outbox (websocket_broadcast msg w).2 c
            = if decide (c ∈ delivered) then outbox w c ++ [msg] else outbox w c)
    ∧ ((∀ c, c ∈ active_websockets w → transport_of w c = true) → rest = []).
Proof.
  intros Hnd. unfold websocket_broadcast.
  destruct (broadcast_loop_spec (active_websockets w) msg w Hnd)
    as (delivered & rest & Heq & Hall & Hrest & Hd).
  exists delivered, rest. split; [done|]. split; [|split; [done|split]].
  - intros c Hc. by eapply Forall_forall in Hall.
  - apply Hd.
  - intros Hup. destruct rest as [|c rest]; [done|].
    destruct Hrest as [Hdown _]. rewrite Hup in Hdown; [done|].
    rewrite Heq. apply elem_of_app. right. apply elem_of_cons. by left.
Qed.

Context (USERNAME : string).

(** [get_websocket_access] when [jwt.decode] raises: nothing catches the
    [JWTError], so it leaves the dependency before any [close]. *)
Lemma get_websocket_access_undecoded ws (token : Jose.token) (now : Z)
    (err : Jose.JWTError) w :
  Jose.decode token SECRET_KEY [ALGORITHM] now = inl err →
  get_websocket_access USERNAME ws (Some token) now w = (Raise (JWTError err), w).
Proof.
  intros Hd. unfold get_websocket_access, jwt_decode. rewrite Hd. reflexivity.
Qed.

(** [get_websocket_access] without a token: close with 1008, then 401. *)
Lemma get_websocket_access_missing ws (now : Z) w :
  get_websocket_access USERNAME ws None now w
  = (Raise credentials_exception, (websocket_close ws WS_1008_POLICY_VIOLATION w).2).
Proof. reflexivity. Qed.

(** The dependency touches no registry, no task and no outbox; at most it
    closes the websocket. *)
Lemma get_websocket_access_frame ws (token : option Jose.token) (now : Z) w :
  let w' := (get_websocket_access USERNAME ws token now w).2 in
  active_websockets w' = active_websockets w
  ∧ length (sockets w') = length (sockets w)
  ∧ (∀ c, task_of w' c = task_of w c)
  ∧ (∀ c, outbox w' c = outbox w c).
Proof.
  assert (Hclose : ∀ w0,
    let w' := (websocket_close ws WS_1008_POLICY_VIOLATION w0).2 in
    active_websockets w' = active_websockets w0
    ∧ length (sockets w') = length (sockets w0)
    ∧ (∀ c, task_of w' c = task_of w0 c)
    ∧ (∀ c, outbox w' c = outbox w0 c)).
  { intros w0. simpl. split; [done|]. split; [apply length_alter|]. split.
    - intros c. unfold task_of. by apply (on_socket_keeps task Finished).
    - intros c. unfold outbox. by apply (on_socket_keeps sent []). }
  destruct token as [token|]; [|apply Hclose].
  unfold get_websocket_access, jwt_decode, mbind, stateful_bind, lift.
  destruct (Jose.decode token SECRET_KEY [ALGORITHM] now) as [err|payload];
    [done|].
  destruct (no_access USERNAME (payload !! "sub"%string)) as [[|]|e]; try done.
  apply Hclose.
Qed.

(** A handshake that ends in an exception leaves the registry as it was and
    the new websocket without a message: the endpoint, which alone accepts
    and registers, has not run. *)
Lemma websocket_route_refused (token : option Jose.token) (now : Z) w (e : exn) :
  (websocket_route USERNAME token now w).1 = Raise e →
  active_websockets (websocket_route USERNAME token now w).2 = active_websockets w
  ∧ outbox (websocket_route USERNAME token now w).2 (length (sockets w)) = [].
Proof.
  unfold websocket_route.
  set (n := length (sockets w)).
  set (w0 := {| sockets := sockets w ++ [new_websocket];
                active_websockets := active_websockets w |}).
  assert (Hnew : outbox w0 n = []).
  { unfold outbox, w0, n. simpl. rewrite lookup_app_r by lia.
    by rewrite Nat.sub_diag. }
  pose proof (get_websocket_access_frame n token now w0) as Hframe.
  destruct (get_websocket_access USERNAME n token now w0) as [[b|e'] w1];
    cbv zeta in Hframe; cbn [snd] in Hframe;
    destruct Hframe as (Hreg & _ & _ & Hout).
  - intros Hraise. discriminate Hraise.
  - intros _. cbn [snd]. split.
    + unfold set_task. rewrite on_socket_registry. exact Hreg.
    + unfold outbox, set_task. rewrite (on_socket_keeps sent []) by done.
      fold (outbox w1 n). by rewrite Hout.
Qed.

(** *** The registry along a run of the service *)

Lemma list_remove_spec (x : nat) (l : list nat) :
  x ∈ l → NoDup l →
  ∃ l', list_remove x l = Some l' ∧ NoDup l' ∧ ∀ y, y ∈ l' ↔ y ∈ l ∧ y ≠ x.
Proof.
  induction l as [|a l IH]; intros Hin Hnd; [by apply not_elem_of_nil in Hin|].
  apply NoDup_cons in Hnd as [Ha Hl]. simpl.
  destruct (decide (x = a)) as [->|Hne].
  - exists l. split; [done|]. split; [done|]. intros y. rewrite elem_of_cons.
    split; [intros Hy; split; [by right | by intros ->] | intros [[->|Hy] Hy']; done].
  - apply elem_of_cons in Hin as [->|Hin]; [done|].
    destruct (IH Hin Hl) as (l' & -> & Hnd' & Hl').
    exists (a :: l'). split; [done|]. split.
    + apply NoDup_cons. split; [|done]. rewrite Hl'. tauto.
    + intros y. rewrite !elem_of_cons, Hl'.
      split; [intros [->|[? ?]]; auto | intros [[->|?] ?]; auto].
Qed.

Lemma task_of_set_task ws (t : coroutine) w c :
  task_of (set_task ws t w).2 c
  = if decide (c = ws ∧ ws < length (sockets w))%nat then t else task_of w c.
Proof.
  unfold task_of, set_task. destruct (decide (c = ws)) as [->|Hne].
  - rewrite on_socket_lookup.
    destruct (sockets w !! ws) as [s|] eqn:Hs; simpl.
    + apply lookup_lt_Some in Hs. by rewrite decide_True.
    + apply lookup_ge_None in Hs. rewrite decide_False; [done|]. lia.
  - rewrite on_socket_lookup_ne by done. rewrite decide_False; [done|]. tauto.
Qed.

Lemma registry_ok_in_range w ws :
  registry_ok w → ws ∈ active_websockets w → (ws < length (sockets w))%nat.
Proof.
  intros [_ Hiff] Hin. apply Hiff in Hin. unfold task_of in Hin.
  destruct (sockets w !! ws) as [s|] eqn:Hs; [|done].
  by apply lookup_lt_Some in Hs.
Qed.

(** A new [WebSocket] object is one the registry does not hold. *)
Lemma registry_ok_fresh w :
  registry_ok w → length (sockets w) ∉ active_websockets w.
Proof.
  intros Hok Hin. apply (registry_ok_in_range _ _ Hok) in Hin. lia.
Qed.

Lemma task_of_new w c :
  task_of {| sockets := sockets w ++ [new_websocket];
             active_websockets := active_websockets w |} c
  = if decide (c = length (sockets w)) then Pending else task_of w c.
Proof.
  unfold task_of. simpl. case_decide as Hc.
  - subst c. rewrite lookup_app_r by lia. by rewrite Nat.sub_diag.
  - destruct (decide (c < length (sockets w))%nat) as [Hlt|Hge].
    + by rewrite lookup_app_l.
    + rewrite (proj2 (lookup_ge_None (sockets w) c)) by lia.
      rewrite (proj2 (lookup_ge_None _ c)); [done|].
      rewrite length_app. simpl. lia.
Qed.

Lemma websocket_endpoint_enter_world ws w :
  (websocket_endpoint_enter ws w).2
  = (set_task ws Receiving (registry_append ws (websocket_accept ws w).2).2).2.
Proof. reflexivity. Qed.

Lemma accepted_and_appended ws w :
  let w' := (registry_append ws (websocket_accept ws w).2).2 in
  active_websockets w' = active_websockets w ++ [ws]
  ∧ length (sockets w') = length (sockets w)
  ∧ ∀ c, task_of w' c = task_of w c.
Proof.
  simpl. split; [done|]. split; [apply length_alter|].
  intros c. unfold task_of. by apply (on_socket_keeps task Finished).
Qed.

Lemma websocket_route_registry_ok (token : option Jose.token) (now : Z) w :
  registry_ok w → registry_ok (websocket_route USERNAME token now w).2.
Proof.
  intros Hok. pose proof (registry_ok_fresh w Hok) as Hfresh.
  destruct Hok as [Hnd Hiff]. unfold websocket_route.
  set (n := length (sockets w)) in *.
  set (w0 := {| sockets := sockets w ++ [new_websocket];
                active_websockets := active_websockets w |}).
  assert (Hn : (n < length (sockets w0))%nat).
  { unfold w0. simpl. rewrite length_app. simpl. lia. }
  assert (Htask0 : ∀ c, c ≠ n → task_of w0 c = task_of w c).
  { intros c Hc. unfold w0. rewrite task_of_new. by rewrite decide_False. }
  pose proof (get_websocket_access_frame n token now w0) as Hframe.
  destruct (get_websocket_access USERNAME n token now w0) as [[b|e] w1];
    cbv zeta in Hframe; cbn [snd] in Hframe;
    destruct Hframe as (Hreg & Hlen & Htask & _).
  - (* the endpoint runs *)
    rewrite websocket_endpoint_enter_world.
    destruct (accepted_and_appended n w1) as (Hreg2 & Hlen2 & Htask2).
    split.
    + change (NoDup (active_websockets (registry_append n (websocket_accept n w1).2).2)).
      rewrite Hreg2, Hreg. apply NoDup_app. split; [done|]. split.
      * intros x Hx ->%list_elem_of_singleton. done.
      * apply NoDup_singleton.
    + intros c. rewrite task_of_set_task, Hlen2, Hlen.
      change (active_websockets (set_task n Receiving
                (registry_append n (websocket_accept n w1).2).2).2)
        with (active_websockets (registry_append n (websocket_accept n w1).2).2).
      rewrite Hreg2, Hreg, elem_of_app, list_elem_of_singleton.
      destruct (decide (c = n)) as [->|Hne].
      * rewrite decide_True by done. tauto.
      * rewrite decide_False by tauto.
        rewrite Htask2, Htask, Htask0 by done.
        change (active_websockets w0) with (active_websockets w).
        specialize (Hiff c). tauto.
  - (* the dependency raised *)
    cbn [snd]. split.
    + change (NoDup (active_websockets w1)). by rewrite Hreg.
    + intros c. rewrite task_of_set_task, Hlen.
      change (active_websockets (set_task n Finished w1).2)
        with (active_websockets w1).
      rewrite Hreg. change (active_websockets w0) with (active_websockets w).
      destruct (decide (c = n)) as [->|Hne].
      * rewrite decide_True by done. split; [done|done].
      * rewrite decide_False by tauto.
        rewrite Htask, Htask0 by done. apply Hiff.
Qed.

Lemma websocket_endpoint_turn_registry_ok ws (m : incoming) w :
  registry_ok w → task_of w ws = Receiving →
  registry_ok (websocket_endpoint_turn ws m w).2
  ∧ (m = Disconnect → ws ∉ active_websockets (websocket_endpoint_turn ws m w).2).
Proof.
  intros Hok Hrecv. destruct m as [text|]; [split; done|].
  pose proof (registry_ok_in_range w ws Hok) as Hrange.
  destruct Hok as [Hnd Hiff].
  assert (Hin : ws ∈ active_websockets w) by by apply Hiff.
  specialize (Hrange Hin).
  destruct (list_remove_spec ws _ Hin Hnd) as (l' & Hrm & Hnd' & Hl').
  assert (Hturn : (websocket_endpoint_turn ws Disconnect w).2
                  = (set_task ws Finished
                       {| sockets := sockets w; active_websockets := l' |}).2).
  { unfold websocket_endpoint_turn, try_except_WebSocketDisconnect.
    simpl. unfold mbind, stateful_bind, registry_remove. by rewrite Hrm. }
  rewrite Hturn.
  assert (Hout : ws ∉ l') by (rewrite Hl'; tauto).
  split; [|done]. split; [done|].
  intros c. rewrite task_of_set_task.
  change (active_websockets (set_task ws Finished
            {| sockets := sockets w; active_websockets := l' |}).2) with l'.
  change (sockets {| sockets := sockets w; active_websockets := l' |})
    with (sockets w).
  rewrite Hl'. destruct (decide (c = ws)) as [->|Hne].
  - rewrite decide_True by done. split; [tauto | done].
  - rewrite decide_False by tauto.
    change (task_of {| sockets := sockets w; active_websockets := l' |} c)
      with (task_of w c).
    specialize (Hiff c). tauto.
Qed.

Lemma rpc_callback_registry_ok msg w :
  registry_ok w →
  registry_ok (rpc_callback msg w)
  ∧ active_websockets (rpc_callback msg w) = active_websockets w.
Proof.
  intros Hok. unfold rpc_callback.
  destruct (active_websockets w) as [|c l] eqn:Hreg; [by rewrite Hreg|].
  destruct Hok as [Hnd Hiff]. unfold websocket_broadcast.
  destruct (broadcast_loop_spec (active_websockets w) msg w Hnd)
    as (delivered & rest & _ & _ & _ & Hsame & _ & Htask & _).
  split; [|by rewrite Hsame]. split; [by rewrite Hsame|].
  intros x. by rewrite Hsame, Htask.
Qed.

Lemma step_registry_ok w (e : event) :
  registry_ok w → registry_ok (step USERNAME w e).
Proof.
  intros Hok. destruct e as [token now|ws m|msg|ws]; cbn [step].
  - by apply websocket_route_registry_ok.
  - case_decide as Ht; [|done].
    by apply websocket_endpoint_turn_registry_ok.
  - by apply rpc_callback_registry_ok.
  - destruct Hok as [Hnd Hiff]. split; [done|]. intros c.
    rewrite on_socket_registry, Hiff. unfold task_of.
    by rewrite (on_socket_keeps task Finished).
Qed.

Lemma foldl_registry_ok (events : list event) w :
  registry_ok w → registry_ok (foldl (step USERNAME) w events).
Proof.
  revert w. induction events as [|e events IH]; intros w Hok; [done|].
  simpl. apply IH. by apply step_registry_ok.
Qed.

Lemma run_registry_ok (events : list event) : registry_ok (run USERNAME events).
Proof.
  apply foldl_registry_ok. split; [apply NoDup_nil_2|].
  intros ws. unfold task_of. simpl. split; [intros []%not_elem_of_nil | done].
Qed.

(** C9, as the code has it: in every state the service reaches no
    websocket is registered twice; once the turn of a receive loop that
    saw the peer disconnect is over, that websocket is out of the
    registry; and a broadcast leaves the registry as it found it, also
    when one of its sends raised. *)
Theorem registry_invariant (events : list event) :
  NoDup (active_websockets (run USERNAME events))
  ∧ (∀ ws, ws ∉ active_websockets
                  (step USERNAME (run USERNAME events) (Receives ws Disconnect)))
  ∧ (∀ msg, active_websockets (step USERNAME (run USERNAME events) (Publishes msg))
            = active_websockets (run USERNAME events)).
Proof.
  pose proof (run_registry_ok events) as Hok.
  split; [apply Hok|]. split.
  - intros ws. simpl. case_decide as Ht.
    + by apply websocket_endpoint_turn_registry_ok.
    + destruct Hok as [_ Hiff]. by rewrite Hiff.
  - intros msg. simpl. by apply rpc_callback_registry_ok.
Qed.

End Websockets.

(** ** The properties at work on sample data *)



Lemma get_access_without_sub_witness :
  get_access "admin" anonymous_token 10 = Raise credentials_exception.
Proof.
  apply (get_access_without_sub "admin" anonymous_token 10
           {[ "exp"%string := Jose.VNum 1800 ]}).
  - vm_compute; reflexivity.
  - vm_compute; reflexivity.
Defined.

Lemma get_access_failure_is_uniform_witness :
  get_access "admin" (forged_token 0) 10
  = Raise (HTTPException 401 "Could not validate credentials" bearer_headers).
Proof.
  apply (get_access_failure_is_uniform "admin" (forged_token 0) 10
           Jose.InvalidSignature).
  vm_compute; reflexivity.
Defined.

(** C7 as the design document words it fails: a forged token and an expired
    one are refused for different causes and yet answered with the same
    exception, so no reading of the exception gives the cause back. *)
Lemma get_access_error_hides_cause : ¬ failure_names_its_cause "admin".
Proof.
  intros [cause_of H].
  destruct (H (forged_token 0) 10 Jose.InvalidSignature) as (e1 & He1 & Hc1);
    [vm_compute; reflexivity|].
  destruct (H (admin_token 0) 5000 Jose.ExpiredSignatureError) as (e2 & He2 & Hc2);
    [vm_compute; reflexivity|].
  rewrite (get_access_undecoded "admin" _ _ Jose.InvalidSignature) in He1
    by (vm_compute; reflexivity).
  rewrite (get_access_undecoded "admin" _ _ Jose.ExpiredSignatureError) in He2
    by (vm_compute; reflexivity).
  injection He1 as <-. injection He2 as <-. congruence.
Qed.

(** C5 fails on the code outside ASCII usernames and passwords passlib
    takes: a submitted username with a non-ASCII character makes
    [compare_digest] raise [TypeError], and a password that holds a NUL
    makes [pwd_context.verify] raise [ValueError], which happens for the
    configured username and not for another one, so that the outcome tells
    that the username was right. For the other pairs shown the code does
    as the design document says. *)
Theorem authenticate_user_raises :
  authenticate_user "secret" "salt" "admin" umlaut_name "secret" = Raise TypeError
  ∧ authenticate_user "secret" "salt" "admin" "admin" nul_password = Raise ValueError
  ∧ authenticate_user "secret" "salt" "admin" "root" nul_password = Return (Bool false)
  ∧ authenticate_user "secret" "salt" "admin" "admin" "secret" = Return (Str "admin")
  ∧ authenticate_user "secret" "salt" "admin" "Admin" "secret" = Return (Bool false)
  ∧ authenticate_user "secret" "salt" "admin" "admin" "" = Return (Bool false)
  ∧ authenticate_user "secret" "salt" "admin" "" "" = Return (Bool false)
  ∧ ¬ other_pairs_get_False "admin" "secret".
Proof.
  do 7 (split; [vm_compute; reflexivity|]).
  intros H. specialize (H "salt"%string umlaut_name "secret"%string).
  assert (Hraise : authenticate_user "secret" "salt" "admin" umlaut_name "secret"
                   = Raise TypeError) by (vm_compute; reflexivity).
  rewrite Hraise in H. discriminate H. intros [Hname _]. discriminate Hname.
Qed.


Lemma login_token_expiry_witness :
  ∃ body,
    admin_token 1000 = Jose.Compact ALGORITHM body (Jose.sign ALGORITHM SECRET_KEY body)
    ∧ body !! "exp"%string = Some (Jose.VNum (1000 + 30 * 60))
    ∧ body !! "sub"%string = Some (Jose.VStr "admin")
    ∧ "bearer"%string = "bearer"%string.
Proof.
  apply (login_token_expiry "admin" "secret" "salt" "admin" "secret" 1000
           {| access_token := admin_token 1000; token_type := "bearer" |}).
  vm_compute; reflexivity.
Defined.



(** C2 fails on the code for a token that [jwt.decode] refuses: the
    [JWTError] leaves [get_websocket_access] uncaught, where [get_access]
    catches it, so [close] is never called with the policy-violation code.
    The websocket is left unaccepted, unregistered and without a message,
    but not closed with 1008; this for an expired token, an unparseable one
    and one with a bad signature, while a missing token is closed with
    1008. *)
Theorem websocket_refused_token_is_not_closed :
  let untouched := {| accepted := false; close_code := None; sent := [];
                      transport_up := true; task := Finished |} in
  websocket_route "admin" (Some (admin_token 0)) 5000 startup
    = (Raise (JWTError Jose.ExpiredSignatureError),
       {| sockets := [untouched]; active_websockets := [] |})
  ∧ websocket_route "admin" (Some (Jose.Unparseable "not.a.token")) 10 startup
    = (Raise (JWTError Jose.MalformedToken),
       {| sockets := [untouched]; active_websockets := [] |})
  ∧ websocket_route "admin" (Some (forged_token 0)) 10 startup
    = (Raise (JWTError Jose.InvalidSignature),
       {| sockets := [untouched]; active_websockets := [] |})
  ∧ websocket_route "admin" None 10 startup
    = (Raise credentials_exception,
       {| sockets := [ {| accepted := false;
                          close_code := Some WS_1008_POLICY_VIOLATION;
                          sent := []; transport_up := true; task := Finished |} ];
          active_websockets := [] |})
  ∧ ¬ refused_handshake_is_closed "admin".
Proof.
  cbv zeta. split; [vm_compute; reflexivity|]. split; [vm_compute; reflexivity|].
  split; [vm_compute; reflexivity|]. split; [vm_compute; reflexivity|].
  intros H.
  destruct (H (Some (admin_token 0)) 5000 startup) as [Hclosed _].
  - right. exists (admin_token 0), Jose.ExpiredSignatureError.
    split; [reflexivity | vm_compute; reflexivity].
  - vm_compute in Hclosed. discriminate Hclosed.
Qed.

(** C9 as the design document words it fails for sends: after a client has
    connected and its transport is lost, a broadcast raises on its websocket
    and the websocket is still registered when the broadcast is over. *)
Lemma failed_send_stays_registered :
  failing_send (run "admin" lost_connection)
    (active_websockets (run "admin" lost_connection)) = Some 0%nat
  ∧ (websocket_broadcast "tick" (run "admin" lost_connection)).1 = Raise TransportError
  ∧ active_websockets (step "admin" (run "admin" lost_connection) (Publishes "tick"))
    = [0%nat]
  ∧ ¬ failed_sends_are_pruned "admin".
Proof.
  split; [vm_compute; reflexivity|]. split; [vm_compute; reflexivity|].
  split; [vm_compute; reflexivity|].
  intros H. apply (H lost_connection "tick"%string 0%nat).
  - vm_compute; reflexivity.
  - vm_compute. constructor.
Qed.


(** * Further properties of the code *)


(** ** Tokens and sessions *)

Section Sessions.

Context (USERNAME PASSWORD : string).

(** Decoding what was just encoded under the module's key and algorithm
    comes down to the validation of the claims. *)
Lemma decode_encoded (claims : gmap string Jose.value) (now : Z) :
  Jose.decode (Jose.encode claims SECRET_KEY ALGORITHM) SECRET_KEY [ALGORITHM] now
  = match Jose.validate_claims claims now with
    | Some e => inl e
    | None => inr claims
    end.
Proof.
  pose proof (JoseFacts.encode_verifies claims SECRET_KEY ALGORITHM) as Hv.
  unfold Jose.encode in *. unfold Jose.decode. by rewrite Hv.
Qed.

Lemma validate_stamped (data : gmap string Jose.value) (e now : Z) :
  Jose.validate_claims (<[ "exp"%string := Jose.VNum e ]> data) now
  = if Jose.expired e now then Some Jose.ExpiredSignatureError
    else Jose.validate_sub data.
Proof.
  unfold Jose.validate_claims, Jose.validate_sub.
  rewrite lookup_insert_eq. by rewrite lookup_insert_ne.
Qed.

(** The lifetime [create_access_token] gives a token: the [timedelta] asked
    for, or 15 minutes when it is [None] or zero. *)
Lemma create_access_token_stamp (data : gmap string Jose.value)
    (expires_delta : option Z) (utcnow : Z) :
  create_access_token data expires_delta utcnow
  = Jose.encode
      (<[ "exp"%string :=
            Jose.VNum (utcnow + match expires_delta with
                                | Some d => if bool_decide (d = 0) then 15 * 60 else d
                                | None => 15 * 60
                                end) ]> data)
      SECRET_KEY ALGORITHM.
Proof.
  unfold create_access_token, timedelta_minutes.
  destruct expires_delta as [d|]; [|done]. by case_bool_decide.
Qed.



(** The time during which [get_access] accepts what [login] returned. *)
Lemma login_token_window (salt username password : string)
    (utcnow now : Z) (tok : Token) :
  login USERNAME PASSWORD salt username password utcnow = Return tok →
  (get_access USERNAME (access_token tok) now = Return true ↔ now ≤ utcnow + 1800).
Proof.
  intros (-> & Hu & _)%login_Return. simpl.
  rewrite get_access_true, create_access_token_stamp.
  setoid_rewrite decode_encoded. setoid_rewrite validate_stamped.
  unfold timedelta_minutes, ACCESS_TOKEN_EXPIRE_MINUTES. simpl.
  change (60 * 30) with 1800.
  destruct (Jose.expired (utcnow + 1800) now) eqn:He.
  - apply JoseFacts.expired_spec in He. split; [|lia].
    intros (payload & Hd & _). discriminate Hd.
  - apply JoseFacts.expired_false in He. split; [done|]. intros _.
    eexists. split; [reflexivity|]. split; [|done]. unfold Jose.subject.
    rewrite lookup_insert_ne by done. by rewrite lookup_singleton_eq.
Qed.

(** X3: the token [login] returns opens the REST routes for 30 minutes, the
    last second included: [get_access] accepts it at every time up to and
    including the time of login plus 1800 seconds, and at no later time. *)
Theorem login_session_window (salt username password : string)
    (utcnow now : Z) (tok : Token) :
  login USERNAME PASSWORD salt username password utcnow = Return tok →
  (get_access USERNAME (access_token tok) now = Return true ↔ now ≤ utcnow + 1800).
Proof. apply login_token_window. Qed.

(** X4: with a configured password passlib takes, and for ASCII usernames
    and a submitted password passlib takes, [login] answers 401
    "Incorrect username or password" exactly when the submitted pair is not
    the configured one or the configured username is empty, and returns a
    bearer token otherwise. Outside that, [login] does not answer 401 by
    itself: a non-ASCII character in the configured or the submitted
    username makes [compare_digest] raise [TypeError]; and a submitted
    password passlib does not take raises [ValueError] when the username
    is the configured one, and is answered 401 when it is not. *)
Theorem login_refusal (salt username password : string) (utcnow : Z) :
  Passlib.usable PASSWORD = true →
  (is_ascii USERNAME = true → is_ascii username = true →
   Passlib.usable password = true →
   (login USERNAME PASSWORD salt username password utcnow
    = Raise (HTTPException 401 "Incorrect username or password" bearer_headers)
    ↔ ¬ (username = USERNAME ∧ password = PASSWORD) ∨ USERNAME = EmptyString)
   ∧ (username = USERNAME → password = PASSWORD → USERNAME ≠ EmptyString →
      ∃ tok, login USERNAME PASSWORD salt username password utcnow = Return tok
             ∧ token_type tok = "bearer"%string))
  ∧ (is_ascii USERNAME && is_ascii username = false →
     login USERNAME PASSWORD salt username password utcnow = Raise TypeError)
  ∧ (is_ascii USERNAME = true → is_ascii username = true →
     Passlib.usable password = false →
     login USERNAME PASSWORD salt username password utcnow
     = if bool_decide (username = USERNAME) then Raise ValueError
       else Raise (HTTPException 401 "Incorrect username or password" bearer_headers)).
Proof.
  intros HP. rewrite login_outcome, HP. split; [|split].
  - intros Hu Hu' Hp. rewrite Hu, Hu', Hp. simpl. split.
    + destruct (decide (username = USERNAME)) as [->|Hne].
      * rewrite bool_decide_eq_true_2 by done.
        case_bool_decide as Hb; split; try done.
        -- intros [Hn | He]; [destruct Hn; tauto | tauto].
        -- intros _. destruct (decide (USERNAME = EmptyString)); [by right|].
           left. tauto.
      * rewrite bool_decide_eq_false_2 by done. split; [|done].
        intros _. left. tauto.
    + intros -> -> Hne. rewrite !bool_decide_eq_true_2 by done. by eexists.
  - by intros ->.
  - intros Hu Hu' Hp. by rewrite Hu, Hu', Hp.
Qed.

End Sessions.

(** ** The handshake of the push channel *)

Section Handshake.

Context (USERNAME : string).

Implicit Types (w : world) (ws : nat).

(** [get_websocket_access] once [jwt.decode] has returned a payload. *)
Lemma get_websocket_access_decoded ws (t : Jose.token) (now : Z)
    (payload : gmap string Jose.value) w :
  Jose.decode t SECRET_KEY [ALGORITHM] now = inr payload →
  get_websocket_access USERNAME ws (Some t) now w
  = match Jose.subject payload with
    | Some username =>
        match compare_digest USERNAME username with
        | Return true => (Return true, w)
        | Return false =>
            (Raise credentials_exception,
             (websocket_close ws WS_1008_POLICY_VIOLATION w).2)
        | Raise e => (Raise e, w)
        end
    | None =>
        (Raise credentials_exception,
         (websocket_close ws WS_1008_POLICY_VIOLATION w).2)
    end.
Proof.
  intros Hd. pose proof (JoseFacts.decode_sub _ _ _ _ _ Hd) as Hs.
  unfold get_websocket_access, jwt_decode, mbind, stateful_bind, lift.
  rewrite Hd. unfold Jose.subject, no_access.
  destruct Hs as [-> | [s ->]]; [done|].
  unfold mbind, result_bind.
  by destruct (compare_digest USERNAME s) as [[|]|e].
Qed.

Lemma alter_last {A} (f : A → A) (l : list A) (x : A) :
  alter f (length l) (l ++ [x]) = l ++ [f x].
Proof. rewrite alter_app_r_alt by lia. by rewrite Nat.sub_diag. Qed.

Lemma websocket_route_decoded (t : Jose.token) (now : Z)
    (payload : gmap string Jose.value) w :
  Jose.decode t SECRET_KEY [ALGORITHM] now = inr payload →
  websocket_route USERNAME (Some t) now w
  = match Jose.subject payload with
    | Some username =>
        match compare_digest USERNAME username with
        | Return true => (Return (), joined w)
        | Return false => (Raise credentials_exception, turned_away w)
        | Raise e => (Raise e, left_unanswered w)
        end
    | None => (Raise credentials_exception, turned_away w)
    end.
Proof.
  intros Hd. unfold websocket_route.
  rewrite (get_websocket_access_decoded _ _ _ _ _ Hd).
  assert (Haway : (Raise credentials_exception,
             (set_task (length (sockets w)) Finished
                (websocket_close (length (sockets w)) WS_1008_POLICY_VIOLATION
                   {| sockets := sockets w ++ [new_websocket];
                      active_websockets := active_websockets w |}).2).2)
          = (Raise credentials_exception : result (), turned_away w)).
  { unfold turned_away, set_task, websocket_close, on_socket. simpl.
    by rewrite alter_last, alter_last. }
  destruct (Jose.subject payload) as [u|]; [|exact Haway].
  destruct (compare_digest USERNAME u) as [[|]|e]; [| exact Haway |].
  - unfold websocket_endpoint_enter, joined, mbind, stateful_bind. simpl.
    unfold set_task, on_socket. simpl. by rewrite alter_last, alter_last.
  - unfold left_unanswered, set_task, on_socket. simpl. by rewrite alter_last.
Qed.

Lemma websocket_route_undecoded (t : Jose.token) (now : Z) (err : Jose.JWTError) w :
  Jose.decode t SECRET_KEY [ALGORITHM] now = inl err →
  websocket_route USERNAME (Some t) now w = (Raise (JWTError err), left_unanswered w).
Proof.
  intros Hd. unfold websocket_route.
  rewrite (get_websocket_access_undecoded USERNAME _ _ _ err) by done.
  unfold left_unanswered, set_task, on_socket. simpl. by rewrite alter_last.
Qed.

Lemma websocket_route_missing (now : Z) w :
  websocket_route USERNAME None now w = (Raise credentials_exception, turned_away w).
Proof.
  unfold websocket_route. rewrite get_websocket_access_missing.
  unfold turned_away, set_task, websocket_close, on_socket. simpl.
  by rewrite alter_last, alter_last.
Qed.

(** When the handshake reaches the endpoint. *)
Lemma websocket_route_returns (token : option Jose.token) (now : Z) w :
  (websocket_route USERNAME token now w).1 = Return ()
  ↔ ∃ t, token = Some t ∧ get_access USERNAME t now = Return true.
Proof.
  destruct token as [t|].
  - destruct (Jose.decode t SECRET_KEY [ALGORITHM] now) as [err|payload] eqn:Hd.
    + rewrite (websocket_route_undecoded _ _ _ _ Hd).
      split; [done|]. intros (t' & [= <-] & Ha).
      rewrite (get_access_undecoded USERNAME _ _ err) in Ha by done. done.
    + rewrite (websocket_route_decoded _ _ _ _ Hd).
      split.
      * intros Hr. exists t. split; [done|].
        rewrite (get_access_decoded _ _ _ _ Hd).
        destruct (Jose.subject payload) as [u|]; [|done].
        by destruct (compare_digest USERNAME u) as [[|]|e].
      * intros (t' & [= <-] & Ha). rewrite (get_access_decoded _ _ _ _ Hd) in Ha.
        destruct (Jose.subject payload) as [u|]; [|done].
        by destruct (compare_digest USERNAME u) as [[|]|e].
  - split; [done|]. by intros (t & ? & _).
Qed.

(** X5: the push channel and the REST routes let the same tokens through:
    the handshake reaches the endpoint exactly when it carries a token that
    [get_access] accepts at that time. *)
Theorem websocket_route_agrees_with_get_access (token : option Jose.token)
    (now : Z) w :
  (websocket_route USERNAME token now w).1 = Return ()
  ↔ ∃ t, token = Some t ∧ get_access USERNAME t now = Return true.
Proof. apply websocket_route_returns. Qed.

(** X6: a handshake with a token that [get_access] would accept returns
    normally and leaves the world with one more websocket, accepted, not
    closed, without a message yet, its endpoint in the receive loop, and
    registered last; the other websockets and the order of the registry
    are as before. *)
Theorem accepted_handshake_joins (t : Jose.token) (now : Z) w :
  get_access USERNAME t now = Return true →
  websocket_route USERNAME (Some t) now w
  = (Return (),
     {| sockets := sockets w ++ [ {| accepted := true; close_code := None;
                                     sent := []; transport_up := true;
                                     task := Receiving |} ];
        active_websockets := active_websockets w ++ [length (sockets w)] |}).
Proof.
  intros (payload & Hd & Hs & Hu)%get_access_true.
  rewrite (websocket_route_decoded _ _ _ _ Hd), Hs.
  rewrite compare_digest_ascii by done. by rewrite bool_decide_eq_true_2.
Qed.

(** X7: a handshake without a token, or with a token that decodes but names
    no subject, or names another subject than the configured username (both
    ASCII text), has its websocket closed with code 1008 and ends with the
    401 exception; the websocket is not accepted, gets no message and the
    registry is as before. When the subject or the configured username has
    a non-ASCII character, [compare_digest] raises [TypeError] before any
    [close]: the handshake ends with that exception and the websocket is
    left neither accepted nor closed. *)
Theorem refused_subject_is_closed (token : option Jose.token) (now : Z) w :
  (token = None
   ∨ (∃ t payload, token = Some t
        ∧ Jose.decode t SECRET_KEY [ALGORITHM] now = inr payload
        ∧ payload !! "sub"%string = None)
   ∨ (∃ t payload other, token = Some t
        ∧ Jose.decode t SECRET_KEY [ALGORITHM] now = inr payload
        ∧ Jose.subject payload = Some other ∧ other ≠ USERNAME
        ∧ is_ascii USERNAME = true ∧ is_ascii other = true) →
   websocket_route USERNAME token now w
   = (Raise credentials_exception,
      {| sockets := sockets w ++ [ {| accepted := false;
                                      close_code := Some WS_1008_POLICY_VIOLATION;
                                      sent := []; transport_up := true;
                                      task := Finished |} ];
         active_websockets := active_websockets w |}))
  ∧ (∀ t payload other, token = Some t →
       Jose.decode t SECRET_KEY [ALGORITHM] now = inr payload →
       Jose.subject payload = Some other →
       is_ascii USERNAME && is_ascii other = false →
       websocket_route USERNAME token now w
       = (Raise TypeError,
          {| sockets := sockets w ++ [ {| accepted := false; close_code := None;
                                          sent := []; transport_up := true;
                                          task := Finished |} ];
             active_websockets := active_websockets w |})).
Proof.
  split.
  - intros [-> | [(t & payload & -> & Hd & Hs)
                 | (t & payload & other & -> & Hd & Hs & Hne & Hu & Ho)]].
    + apply websocket_route_missing.
    + rewrite (websocket_route_decoded _ _ _ _ Hd). unfold Jose.subject.
      by rewrite Hs.
    + rewrite (websocket_route_decoded _ _ _ _ Hd), Hs.
      rewrite compare_digest_ascii by done.
      by rewrite bool_decide_eq_false_2 by congruence.
  - intros t payload other -> Hd Hs Hna.
    rewrite (websocket_route_decoded _ _ _ _ Hd), Hs.
    by rewrite compare_digest_non_ascii.
Qed.

(** X22: the token [login] returns opens the push channel for the same 30
    minutes as the REST routes: a handshake carrying it reaches the
    endpoint at every time up to and including the time of login plus 1800
    seconds, and at no later time. *)
Theorem login_token_opens_push_channel (PASSWORD salt username password : string)
    (utcnow now : Z) (tok : Token) w :
  login USERNAME PASSWORD salt username password utcnow = Return tok →
  ((websocket_route USERNAME (Some (access_token tok)) now w).1 = Return ()
   ↔ now ≤ utcnow + 1800).
Proof.
  intros Hlogin. rewrite websocket_route_returns.
  rewrite <- (login_token_window USERNAME PASSWORD _ _ _ _ now _ Hlogin).
  split; [by intros (t & [= <-] & Ha) | eauto].
Qed.

End Handshake.

(** ** The push channel along a run *)

Section Channel.

Context (USERNAME : string).

Implicit Types (w : world) (ws c : nat) (msg : string).

(** A handshake adds one websocket at the end and touches no other; the new
    one has no message, and is either accepted, open and registered last,
    or not accepted and left out of the registry. *)
Lemma websocket_route_world (token : option Jose.token) (now : Z) w :
  ∃ s, sent s = []
       ∧ (websocket_route USERNAME token now w).2
         = {| sockets := sockets w ++ [s];
              active_websockets :=
                if accepted s then active_websockets w ++ [length (sockets w)]
                else active_websockets w |}
       ∧ (accepted s = true → close_code s = None)
       ∧ (∀ code, close_code s = Some code → code = WS_1008_POLICY_VIOLATION).
Proof.
  assert (Haway : ∃ s, sent s = []
       ∧ turned_away w
         = {| sockets := sockets w ++ [s];
              active_websockets :=
                if accepted s then active_websockets w ++ [length (sockets w)]
                else active_websockets w |}
       ∧ (accepted s = true → close_code s = None)
       ∧ (∀ code, close_code s = Some code → code = WS_1008_POLICY_VIOLATION)).
  { exists {| accepted := false; close_code := Some WS_1008_POLICY_VIOLATION;
              sent := []; transport_up := true; task := Finished |}.
    repeat split; try done. by intros code [= <-]. }
  assert (Hleft : ∃ s, sent s = []
       ∧ left_unanswered w
         = {| sockets := sockets w ++ [s];
              active_websockets :=
                if accepted s then active_websockets w ++ [length (sockets w)]
                else active_websockets w |}
       ∧ (accepted s = true → close_code s = None)
       ∧ (∀ code, close_code s = Some code → code = WS_1008_POLICY_VIOLATION)).
  { exists {| accepted := false; close_code := None; sent := [];
              transport_up := true; task := Finished |}.
    done. }
  destruct token as [t|].
  - destruct (Jose.decode t SECRET_KEY [ALGORITHM] now) as [err|payload] eqn:Hd.
    + by rewrite (websocket_route_undecoded USERNAME _ _ _ _ Hd).
    + rewrite (websocket_route_decoded USERNAME _ _ _ _ Hd).
      destruct (Jose.subject payload) as [u|]; [|exact Haway].
      destruct (compare_digest USERNAME u) as [[|]|e]; [|exact Haway|exact Hleft].
      exists {| accepted := true; close_code := None; sent := [];
                transport_up := true; task := Receiving |}.
      done.
  - by rewrite (websocket_route_missing USERNAME now w).
Qed.

Lemma lookup_snoc {A} (l : list A) (x : A) c :
  (l ++ [x]) !! c = if decide (c = length l) then Some x else l !! c.
Proof.
  case_decide as Hc.
  - subst c. rewrite lookup_app_r by lia. by rewrite Nat.sub_diag.
  - destruct (decide (c < length l)%nat).
    + by rewrite lookup_app_l.
    + rewrite (proj2 (lookup_ge_None l c)) by lia.
      apply lookup_ge_None. rewrite length_app. simpl. lia.
Qed.

Lemma filter_other (x : nat) (l : list nat) :
  x ∉ l → filter (λ y, y ≠ x) l = l.
Proof.
  induction l as [|a l IH]; [done|]. intros [Ha Hl]%not_elem_of_cons.
  rewrite filter_cons_True by done. by rewrite IH.
Qed.

(** [list.remove(x)] on a list that holds [x] once keeps the others in
    their order. *)
Lemma list_remove_filter (x : nat) (l : list nat) :
  x ∈ l → NoDup l → list_remove x l = Some (filter (λ y, y ≠ x) l).
Proof.
  induction l as [|a l IH]; intros Hin Hnd; [by apply not_elem_of_nil in Hin|].
  apply NoDup_cons in Hnd as [Ha Hl]. simpl.
  destruct (decide (x = a)) as [->|Hne].
  - rewrite filter_cons_False by (intros H; by apply H).
    by rewrite filter_other.
  - apply elem_of_cons in Hin as [->|Hin]; [done|].
    rewrite (IH Hin Hl). simpl. by rewrite filter_cons_True by done.
Qed.

(** An inbound text changes nothing. *)
Lemma step_frame w ws (text : string) :
  step USERNAME w (Receives ws (Frame text)) = w.
Proof. cbn [step]. by case_decide. Qed.

(** A disconnect seen by a receive loop drops that websocket from the
    registry and ends its task; nothing else moves. *)
Lemma step_disconnect w ws :
  registry_ok w →
  step USERNAME w (Receives ws Disconnect)
  = if decide (task_of w ws = Receiving)
    then (set_task ws Finished
            {| sockets := sockets w;
               active_websockets := filter (λ x, x ≠ ws) (active_websockets w) |}).2
    else w.
Proof.
  intros [Hnd Hiff]. cbn [step]. case_decide as Ht; [|done].
  assert (Hin : ws ∈ active_websockets w) by by apply Hiff.
  unfold websocket_endpoint_turn, try_except_WebSocketDisconnect.
  simpl. unfold mbind, stateful_bind, registry_remove.
  by rewrite (list_remove_filter _ _ Hin Hnd).
Qed.

(** The loop of the broadcast keeps every field of every websocket but
    [sent]. *)
Lemma broadcast_loop_keeps {A} (field : WebSocket → A) (dflt : A)
    (targets : list nat) msg w c :
  (∀ s m, field {| accepted := accepted s; close_code := close_code s; sent := m;
                   transport_up := transport_up s; task := task s |} = field s) →
  match sockets (broadcast_loop targets msg w).2 !! c with
  | Some s => field s | None => dflt end
  = match sockets w !! c with Some s => field s | None => dflt end.
Proof.
  intros Hf. revert w. induction targets as [|ws l IH]; intros w; [done|].
  simpl. unfold mbind, stateful_bind, websocket_send_text.
  destruct (sockets w !! ws) as [s|] eqn:Hs; [|done].
  destruct (transport_up s); [|done].
  match goal with |- context [on_socket ws ?f w] =>
    destruct (on_socket ws f w) as [[[]|e] w1] eqn:Hw1;
    [|discriminate Hw1];
    assert (w1 = (on_socket ws f w).2) as -> by by rewrite Hw1
  end.
  rewrite IH. apply on_socket_keeps. intros s'. apply Hf.
Qed.

(** What [rpc_callback] does to the world: it appends the message to the
    outbox of some registered websockets and moves nothing else. *)
Lemma rpc_callback_effect msg w :
  registry_ok w →
  ∃ delivered,
    (∀ c, c ∈ delivered → c ∈ active_websockets w)
    ∧ delivered_to msg w (rpc_callback msg w) delivered
    ∧ (∀ c, accepted_of (rpc_callback msg w) c = accepted_of w c)
    ∧ (∀ c, close_code_of (rpc_callback msg w) c = close_code_of w c)
    ∧ length (sockets (rpc_callback msg w)) = length (sockets w).
Proof.
  intros [Hnd _]. unfold rpc_callback.
  destruct (active_websockets w) as [|a l] eqn:Hreg.
  - exists []. split; [by intros c Hc%not_elem_of_nil|].
    split; [|done]. repeat split; try done.
  - rewrite <- Hreg in *. unfold websocket_broadcast.
    destruct (broadcast_loop_spec (active_websockets w) msg w Hnd)
      as (delivered & rest & Heq & _ & _ & Hd).
    exists delivered. split; [|split; [done|split; [|split]]].
    + intros c Hc. rewrite Heq. apply elem_of_app. by left.
    + intros c. unfold accepted_of. by apply broadcast_loop_keeps.
    + intros c. unfold close_code_of. by apply broadcast_loop_keeps.
    + clear. generalize (active_websockets w) as targets. intros targets.
      revert w. induction targets as [|ws l IH]; intros w; [done|].
      simpl. unfold mbind, stateful_bind, websocket_send_text.
      destruct (sockets w !! ws) as [s|]; [|done].
      destruct (transport_up s); [|done]. simpl. rewrite IH. simpl.
      apply length_alter.
Qed.

Lemma step_sockets_ok w (e : event) :
  registry_ok w → sockets_ok w → sockets_ok (step USERNAME w e).
Proof.
  intros Hreg Hok. destruct e as [token now|ws' m|msg|ws']; cbn [step].
  - (* a handshake *)
    pose proof (registry_ok_fresh w Hreg) as Hfresh.
    destruct (websocket_route_world token now w) as (s & Hsent & -> & Hacc & Hcode).
    intros ws. unfold accepted_of, close_code_of, outbox.
    cbn [sockets active_websockets]. rewrite lookup_snoc.
    destruct (Hok ws) as (H1 & H2 & H3).
    unfold accepted_of, close_code_of, outbox in H1, H2, H3.
    destruct (decide (ws = length (sockets w))) as [->|Hne].
    + split; [done|]. split.
      * intros code Hc. split; [by apply Hcode|].
        destruct (accepted s); [|done]. by rewrite Hacc in Hc.
      * destruct (accepted s); [done|]. intros Hin. done.
    + split; [done|]. split; [done|].
      intros Hin. apply H3. destruct (accepted s); [|done].
      apply elem_of_app in Hin as [Hin|Hin%list_elem_of_singleton]; done.
  - (* a receive *)
    destruct m as [text|].
    + pose proof (step_frame w ws' text) as Hf. cbn [step] in Hf. by rewrite Hf.
    + pose proof (step_disconnect w ws' Hreg) as Hd. cbn [step] in Hd. rewrite Hd.
      case_decide; [|done]. intros ws. destruct (Hok ws) as (H1 & H2 & H3).
      unfold accepted_of, close_code_of, outbox, set_task in *.
      rewrite !(on_socket_keeps accepted false) by done.
      rewrite !(on_socket_keeps close_code None) by done.
      rewrite !(on_socket_keeps sent []) by done.
      split; [done|]. split; [done|].
      rewrite on_socket_registry. cbn [active_websockets].
      intros [_ Hin]%list_elem_of_filter. by apply H3.
  - (* a broadcast *)
    destruct (rpc_callback_effect msg w Hreg)
      as (delivered & Hsub & (Hr & _ & _ & Hout) & Hacc & Hcode & _).
    intros ws. destruct (Hok ws) as (H1 & H2 & H3).
    rewrite Hacc, Hcode, Hr, Hout. split; [|done].
    intros Ha. rewrite decide_False; [by apply H1|].
    intros Hin. apply Hsub, H3 in Hin. congruence.
  - (* a transport is lost *)
    intros ws. destruct (Hok ws) as (H1 & H2 & H3).
    unfold accepted_of, close_code_of, outbox in *.
    rewrite !(on_socket_keeps accepted false) by done.
    rewrite !(on_socket_keeps close_code None) by done.
    rewrite !(on_socket_keeps sent []) by done.
    by rewrite on_socket_registry.
Qed.

Lemma foldl_sockets_ok (events : list event) w :
  registry_ok w → sockets_ok w →
  registry_ok (foldl (step USERNAME) w events)
  ∧ sockets_ok (foldl (step USERNAME) w events).
Proof.
  revert w. induction events as [|e events IH]; intros w Hreg Hok; [done|].
  simpl. apply IH; [by apply step_registry_ok | by apply step_sockets_ok].
Qed.

Lemma run_sockets_ok (events : list event) : sockets_ok (run USERNAME events).
Proof.
  apply foldl_sockets_ok.
  - apply (run_registry_ok USERNAME []).
  - intros ws. unfold accepted_of, close_code_of, outbox. simpl.
    repeat split; try done. by intros Hin%not_elem_of_nil.
Qed.

(** X8: whatever happens to the service, a websocket that was not accepted
    has been sent no message: only connections that passed the token check
    of the handshake ever receive a broadcast. *)
Theorem unaccepted_websocket_gets_nothing (events : list event) (ws : nat)
    (s : WebSocket) :
  sockets (run USERNAME events) !! ws = Some s →
  accepted s = false →
  sent s = [].
Proof.
  intros Hs Ha. destruct (run_sockets_ok events ws) as (H1 & _ & _).
  unfold accepted_of, outbox in H1. rewrite Hs in H1. by apply H1.
Qed.

(** X9: whatever happens to the service, every registered websocket is one
    that was accepted and that the server did not close; and a websocket
    the server closed was closed with code 1008, was never accepted and is
    not registered. *)
Theorem registered_websockets_are_accepted (events : list event) (ws : nat)
    (s : WebSocket) :
  sockets (run USERNAME events) !! ws = Some s →
  (ws ∈ active_websockets (run USERNAME events) →
   accepted s = true ∧ close_code s = None)
  ∧ (∀ code, close_code s = Some code →
       code = WS_1008_POLICY_VIOLATION ∧ accepted s = false
       ∧ ws ∉ active_websockets (run USERNAME events)).
Proof.
  intros Hs. destruct (run_sockets_ok events ws) as (_ & H2 & H3).
  unfold accepted_of, close_code_of in H2, H3. rewrite Hs in H2, H3.
  split.
  - intros Hin. specialize (H3 Hin). split; [done|].
    destruct (close_code s) as [code|] eqn:Hc; [|done].
    destruct (H2 code eq_refl) as [_ Hf]. congruence.
  - intros code Hc. destruct (H2 code Hc) as [-> Hf].
    repeat split; try done. intros Hin. specialize (H3 Hin). congruence.
Qed.

Lemma step_finished w (e : event) c :
  registry_ok w → (c < length (sockets w))%nat → task_of w c = Finished →
  (c < length (sockets (step USERNAME w e)))%nat
  ∧ task_of (step USERNAME w e) c = Finished
  ∧ outbox (step USERNAME w e) c = outbox w c.
Proof.
  intros Hreg Hlt Hfin. destruct e as [token now|ws' m|msg|ws']; cbn [step].
  - destruct (websocket_route_world token now w) as (s & Hsent & -> & _).
    unfold task_of, outbox in *. cbn [sockets]. rewrite lookup_snoc.
    rewrite decide_False by lia. rewrite length_app. simpl.
    split; [lia | done].
  - destruct m as [text|].
    + pose proof (step_frame w ws' text) as Hf. cbn [step] in Hf. by rewrite Hf.
    + pose proof (step_disconnect w ws' Hreg) as Hd. cbn [step] in Hd. rewrite Hd.
      case_decide as Ht; [|done].
      split; [unfold set_task, on_socket; cbn [snd sockets];
              by rewrite length_alter|]. split.
      * rewrite task_of_set_task. case_decide; [done|]. done.
      * unfold outbox, set_task. by rewrite (on_socket_keeps sent []).
  - destruct (rpc_callback_effect msg w Hreg)
      as (delivered & Hsub & (_ & _ & Htask & Hout) & _ & _ & Hlen).
    rewrite Hlen, Htask, Hout. split; [done|]. split; [done|].
    rewrite decide_False; [done|]. intros Hin%Hsub.
    destruct Hreg as [_ Hiff]. apply Hiff in Hin. congruence.
  - split; [unfold on_socket; cbn [snd sockets]; by rewrite length_alter|].
  unfold task_of, outbox in *.
    rewrite (on_socket_keeps task Finished) by done.
    by rewrite (on_socket_keeps sent []).
Qed.

Lemma foldl_finished (events : list event) w c :
  registry_ok w → (c < length (sockets w))%nat → task_of w c = Finished →
  outbox (foldl (step USERNAME) w events) c = outbox w c.
Proof.
  revert w. induction events as [|e events IH]; intros w Hreg Hlt Hfin; [done|].
  simpl. destruct (step_finished w e c Hreg Hlt Hfin) as (Hlt' & Hfin' & <-).
  apply IH; [by apply step_registry_ok | done | done].
Qed.

(** X11: once the task of a websocket is over (its handshake was refused,
    or its receive loop saw the disconnect), it is sent nothing more: its
    outbox is the same after whatever happens next. *)
Theorem finished_websocket_gets_nothing_more (before after : list event)
    (ws : nat) (s : WebSocket) :
  sockets (run USERNAME before) !! ws = Some s →
  task s = Finished →
  outbox (run USERNAME (before ++ after)) ws = sent s.
Proof.
  intros Hs Ht. unfold run. rewrite foldl_app. fold (run USERNAME before).
  rewrite foldl_finished.
  - unfold outbox. by rewrite Hs.
  - apply run_registry_ok.
  - by apply lookup_lt_Some in Hs.
  - unfold task_of. by rewrite Hs.
Qed.

(** X12: in every state the service reaches, a disconnect seen by the
    receive loop of a websocket removes that websocket from the registry
    and keeps the others in their order; an inbound text changes
    nothing. *)
Theorem disconnect_removes_exactly (events : list event) (ws : nat) :
  active_websockets (step USERNAME (run USERNAME events) (Receives ws Disconnect))
  = filter (λ x, x ≠ ws) (active_websockets (run USERNAME events))
  ∧ ∀ text, step USERNAME (run USERNAME events) (Receives ws (Frame text))
            = run USERNAME events.
Proof.
  pose proof (run_registry_ok USERNAME events) as Hreg.
  split; [|intros text; apply step_frame].
  rewrite (step_disconnect _ _ Hreg). case_decide as Ht; [done|].
  rewrite filter_other; [done|]. destruct Hreg as [_ Hiff]. by rewrite Hiff.
Qed.

Lemma rpc_callback_all_up msg w :
  registry_ok w →
  (∀ x, x ∈ active_websockets w → transport_of w x = true) →
  registry_ok (rpc_callback msg w)
  ∧ active_websockets (rpc_callback msg w) = active_websockets w
  ∧ (∀ x, transport_of (rpc_callback msg w) x = transport_of w x)
  ∧ ∀ c, outbox (rpc_callback msg w) c
         = if decide (c ∈ active_websockets w) then outbox w c ++ [msg]
           else outbox w c.
Proof.
  intros Hreg Hup.
  destruct (rpc_callback_registry_ok msg w Hreg) as [Hreg' Hsame].
  split; [done|]. split; [done|].
  unfold rpc_callback in *.
  destruct (active_websockets w) as [|a l] eqn:Hl.
  - split; [done|]. intros c. by rewrite decide_False by apply not_elem_of_nil.
  - rewrite <- Hl in *. unfold websocket_broadcast in *.
    destruct Hreg as [Hnd _].
    destruct (broadcast_loop_spec (active_websockets w) msg w Hnd)
      as (delivered & rest & Heq & _ & Hrest & (_ & Htr & _ & Hout)).
    split; [done|].
    destruct rest as [|c' rest].
    + rewrite app_nil_r in Heq. subst delivered. exact Hout.
    + destruct Hrest as [Hdown _]. rewrite Hup in Hdown; [done|].
      rewrite Heq. apply elem_of_app. right. apply elem_of_cons. by left.
Qed.

Lemma foldl_publishes (msgs : list string) w c :
  registry_ok w →
  (∀ x, x ∈ active_websockets w → transport_of w x = true) →
  outbox (foldl (step USERNAME) w (Publishes <$> msgs)) c
  = if decide (c ∈ active_websockets w) then outbox w c ++ msgs else outbox w c.
Proof.
  revert w. induction msgs as [|msg msgs IH]; intros w Hreg Hup.
  - simpl. case_decide; [|done]. by rewrite app_nil_r.
  - simpl. destruct (rpc_callback_all_up msg w Hreg Hup)
      as (Hreg' & Hsame & Htr & Hout).
    rewrite IH; [|done|].
    + rewrite Hsame, Hout. case_decide; [|done]. by rewrite <- app_assoc.
    + intros x Hx. rewrite Htr. apply Hup. by rewrite <- Hsame.
Qed.

(** X13: when the transport of every registered websocket is up, a series
    of broadcasts each of which runs to its end before the next starts,
    nothing else running meanwhile, reaches each registered websocket in
    full and in the order the messages were published, and reaches no other
    websocket. *)
Theorem broadcasts_arrive_in_order (events : list event) (msgs : list string)
    (ws : nat) :
  (∀ x, x ∈ active_websockets (run USERNAME events) →
        transport_of (run USERNAME events) x = true) →
  outbox (run USERNAME (events ++ (Publishes <$> msgs))) ws
  = if decide (ws ∈ active_websockets (run USERNAME events))
    then outbox (run USERNAME events) ws ++ msgs
    else outbox (run USERNAME events) ws.
Proof.
  intros Hup. unfold run at 1. rewrite foldl_app. fold (run USERNAME events).
  apply foldl_publishes; [apply run_registry_ok | done].
Qed.

(** *** A broadcast among the other coroutines *)


Lemma send_text_world ws msg w :
  active_websockets (websocket_send_text ws msg w).2 = active_websockets w
  ∧ length (sockets (websocket_send_text ws msg w).2) = length (sockets w)
  ∧ (∀ c, accepted_of (websocket_send_text ws msg w).2 c = accepted_of w c)
  ∧ (∀ c, close_code_of (websocket_send_text ws msg w).2 c = close_code_of w c).
Proof.
  unfold websocket_send_text, accepted_of, close_code_of.
  destruct (sockets w !! ws) as [s|]; [|done].
  destruct (transport_up s); [|done]. split; [done|].
  split; [simpl; apply length_alter|].
  split; intros c; by apply on_socket_keeps.
Qed.

(** A turn of the loop: over when the registry has no entry left at its
    position; ended by the exception when the transport of the websocket
    there is gone; otherwise one copy delivered to that websocket and to no
    other, and on to the next position. *)
Lemma broadcast_turn_cases msg (i : nat) w :
  match active_websockets w !! i with
  | None => broadcast_turn {| task_msg := msg; task_next := i |} w = (Return None, w)
  | Some ws =>
      if transport_of w ws
      then ∃ w', broadcast_turn {| task_msg := msg; task_next := i |} w
                 = (Return (Some {| task_msg := msg; task_next := S i |}), w')
                 ∧ delivered_to msg w w' [ws]
                 ∧ length (sockets w') = length (sockets w)
                 ∧ (∀ c, accepted_of w' c = accepted_of w c)
                 ∧ (∀ c, close_code_of w' c = close_code_of w c)
      else broadcast_turn {| task_msg := msg; task_next := i |} w
           = (Raise TransportError, w)
  end.
Proof.
  unfold broadcast_turn. cbn [task_msg task_next].
  destruct (active_websockets w !! i) as [ws|]; [|done].
  destruct (transport_of w ws) eqn:Hup.
  - destruct (send_text_up ws msg w Hup) as (w' & Hs & Hd).
    pose proof (send_text_world ws msg w) as (_ & Hlen & Hacc & Hcode).
    rewrite Hs in Hlen, Hacc, Hcode |- *.
    by exists w'.
  - by rewrite (send_text_down ws msg w Hup).
Qed.

(** What holds all along a run holds as well between the turns of a
    broadcast that other coroutines interrupt: a turn leaves the registry
    and the tasks as they are, and writes to a registered websocket only. *)
Lemma broadcast_turn_invariants (b : broadcast_task) w :
  registry_ok w → sockets_ok w →
  active_websockets (broadcast_turn b w).2 = active_websockets w
  ∧ registry_ok (broadcast_turn b w).2
  ∧ sockets_ok (broadcast_turn b w).2.
Proof.
  intros Hreg Hok. destruct b as [msg i].
  pose proof (broadcast_turn_cases msg i w) as Hturn.
  destruct (active_websockets w !! i) as [ws|] eqn:Hi.
  - destruct (transport_of w ws) eqn:Hup; [|by rewrite Hturn].
    destruct Hturn as (w1 & -> & (Hr & Htr & Htask & Hout) & Hlen & Hacc & Hcode).
    cbn [snd]. split; [done|]. split.
    + destruct Hreg as [Hnd Hiff]. split; [by rewrite Hr|].
      intros c. by rewrite Hr, Htask.
    + intros c. destruct (Hok c) as (H1 & H2 & H3).
      rewrite Hacc, Hcode, Hr, Hout. split; [|done].
      intros Ha. rewrite decide_False; [by apply H1|].
      intros ->%list_elem_of_singleton.
      apply list_elem_of_lookup_2 in Hi. destruct (Hok ws) as (_ & _ & H3').
      specialize (H3' Hi). congruence.
  - by rewrite Hturn.
Qed.








(** What holds all along a run holds at the end of a broadcast that other
    coroutines interrupted. *)
Lemma broadcast_run_invariants (schedule : list (list event)) :
  ∀ (b : broadcast_task) w r w',
    registry_ok w → sockets_ok w →
    broadcast_run USERNAME schedule b w = Some (r, w') →
    registry_ok w' ∧ sockets_ok w'.
Proof.
  induction schedule as [|events schedule IH]; intros b w r w' Hreg Hok Hrun;
    [done|].
  cbn [broadcast_run] in Hrun.
  destruct (broadcast_turn_invariants b w Hreg Hok) as (_ & Hreg1 & Hok1).
  destruct (broadcast_turn b w) as [[[b1|]|e] w1]; cbn [snd] in Hreg1, Hok1.
  - destruct (foldl_sockets_ok events w1 Hreg1 Hok1) as [Hreg2 Hok2].
    by apply (IH b1 (foldl (step USERNAME) w1 events) r w').
  - by injection Hrun as <- <-.
  - by injection Hrun as <- <-.
Qed.





(** A broadcast that nothing interrupts is the loop over the registry as it
    was when the broadcast started: [websocket_broadcast] as the events
    [Publishes] of a run take it. *)
Lemma broadcast_run_alone msg (n : nat) :
  ∀ (i : nat) w,
    (length (active_websockets w) - i < n)%nat →
    broadcast_run USERNAME (replicate n []) {| task_msg := msg; task_next := i |} w
    = Some (broadcast_loop (drop i (active_websockets w)) msg w).
Proof.
  induction n as [|n IH]; intros i w Hn; [lia|].
  cbn [replicate broadcast_run]. unfold broadcast_turn. cbn [task_msg task_next].
  destruct (active_websockets w !! i) as [ws|] eqn:Hi.
  - rewrite (drop_S _ _ _ Hi). cbn [broadcast_loop]. unfold mbind, stateful_bind.
    pose proof (send_text_world ws msg w) as [Hr _].
    destruct (websocket_send_text ws msg w) as [[[]|e] w1]; [|done].
    cbn [snd] in Hr. simpl. rewrite <- Hr. apply IH.
    rewrite Hr. apply lookup_lt_Some in Hi. lia.
  - apply lookup_ge_None in Hi. by rewrite drop_ge.
Qed.

Lemma websocket_broadcast_uninterrupted msg w :
  broadcast_run USERNAME (replicate (S (length (active_websockets w))) [])
    {| task_msg := msg; task_next := 0 |} w
  = Some (websocket_broadcast msg w).
Proof. rewrite broadcast_run_alone by lia. by rewrite drop_0. Qed.


End Channel.

(** ** The routes and the backend *)

Section Routes.

Context (USERNAME : string) (rpc_client : RpcClient).

(** A route body adds its calls to the log it is given and depends on that
    log for nothing else. *)
Lemma route_body_log (r : route) (log : list rpc_call) :
  route_body rpc_client r log
  = ((route_body rpc_client r []).1, log ++ (route_body rpc_client r []).2).
Proof.
  destruct r as [v| |model|id| | | | | ]; simpl;
    unfold subscribe, send_order, cancel_order, get_all_ticks, get_all_orders,
      get_all_trades, get_all_positions, get_all_accounts, get_all_contracts,
      mbind, stateful_bind, call, raise, lift, mret, stateful_ret; simpl;
    try done.
  - destruct (rpc_get_contract rpc_client v); simpl; [|done].
    by rewrite <- app_assoc.
  - destruct (rpc_get_contract rpc_client (vt_symbol model)); simpl; [|done].
    by rewrite <- app_assoc.
  - destruct (rpc_get_order rpc_client id); simpl; [|done].
    by rewrite <- app_assoc.
Qed.

(** A request with a token [get_access] accepts is the body of its route. *)
Lemma serve_accepted (t : Jose.token) (r : route) (now : Z) (log : list rpc_call) :
  get_access USERNAME t now = Return true →
  serve USERNAME rpc_client (Some t) r now log = route_body rpc_client r log.
Proof. intros Ha. by apply (serve_granted USERNAME rpc_client _ _ _ _ true). Qed.

Lemma granted_true (authorization : option Jose.token) (now : Z) :
  granted USERNAME authorization now = true
  ↔ ∃ t, authorization = Some t ∧ get_access USERNAME t now = Return true.
Proof.
  unfold granted, Depends_get_access. destruct authorization as [t|]; simpl.
  - destruct (get_access_outcomes USERNAME t now) as [Ha|[Ha|Ha]]; rewrite Ha.
    + split; [eauto | done].
    + split; [done|]. intros (t' & [= <-] & Ha'). congruence.
    + split; [done|]. intros (t' & [= <-] & Ha'). congruence.
  - split; [done|]. by intros (t' & ? & _).
Qed.

(** The calls a request adds to the log: none when it is refused, those of
    the body of its route otherwise. *)
Lemma serve_calls (authorization : option Jose.token) (r : route) (now : Z)
    (log : list rpc_call) :
  (serve USERNAME rpc_client authorization r now log).2
  = log ++ (if granted USERNAME authorization now
            then (route_body rpc_client r []).2 else []).
Proof.
  unfold granted.
  destruct (Depends_get_access USERNAME authorization now) as [b|e] eqn:Hd.
  - rewrite (serve_granted USERNAME rpc_client _ _ _ _ b) by done.
    by rewrite route_body_log.
  - rewrite (serve_refused USERNAME rpc_client _ _ _ _ e) by done.
    by rewrite app_nil_r.
Qed.

(** X14: an accepted request that names a contract or an order the backend
    does not know is answered 404 with a detail naming it, after the single
    lookup: nothing is subscribed, no order is sent and none is cancelled. *)
Theorem unknown_reference_is_404 (t : Jose.token) (now : Z) (log : list rpc_call) :
  get_access USERNAME t now = Return true →
  (∀ vt_symbol, rpc_get_contract rpc_client vt_symbol = None →
     serve USERNAME rpc_client (Some t) (POST_tick vt_symbol) now log
     = (Raise (HTTPException 404 ("Contract " +:+ vt_symbol +:+ " not found.")
                 bearer_headers),
        log ++ [get_contract vt_symbol]))
  ∧ (∀ model, rpc_get_contract rpc_client (vt_symbol model) = None →
       serve USERNAME rpc_client (Some t) (POST_order model) now log
       = (Raise (HTTPException 404
                   ("Contract not found " +:+ req_symbol model +:+ " "
                      +:+ req_exchange model) bearer_headers),
          log ++ [get_contract (req_symbol model +:+ "." +:+ req_exchange model)]))
  ∧ (∀ vt_orderid, rpc_get_order rpc_client vt_orderid = None →
       serve USERNAME rpc_client (Some t) (DELETE_order vt_orderid) now log
       = (Raise (HTTPException 404 ("Delegation " +:+ vt_orderid +:+ " not found.")
                   bearer_headers),
          log ++ [get_order vt_orderid])).
Proof.
  intros Ha. repeat split.
  - intros v Hv. rewrite (serve_accepted _ _ _ _ Ha). simpl.
    unfold subscribe, mbind, stateful_bind, call. by rewrite Hv.
  - intros model Hm. rewrite (serve_accepted _ _ _ _ Ha). simpl.
    unfold send_order, mbind, stateful_bind, call. by rewrite Hm.
  - intros id Hid. rewrite (serve_accepted _ _ _ _ Ha). simpl.
    unfold cancel_order, mbind, stateful_bind, call. by rewrite Hid.
Qed.

(** X15: a call that changes something on the backend is made only by its
    own route, for a request whose token [get_access] accepted, after the
    lookup found what it names: an order is sent only by [POST /order], as
    submitted and to the gateway of its contract; an order is cancelled only
    by [DELETE /order/id], with the cancel request of that order and on its
    gateway; a subscription is made only by [POST /tick/symbol], for the
    contract found. *)
Theorem mutating_calls_are_guarded (authorization : option Jose.token)
    (r : route) (now : Z) (log calls : list rpc_call) :
  (serve USERNAME rpc_client authorization r now log).2 = log ++ calls →
  (∀ req gateway_name, rpc_send_order req gateway_name ∈ calls →
     r = POST_order req
     ∧ (∃ t, authorization = Some t ∧ get_access USERNAME t now = Return true)
     ∧ ∃ contract, rpc_get_contract rpc_client (vt_symbol req) = Some contract
                   ∧ gateway_name = contract_gateway_name contract)
  ∧ (∀ req gateway_name, rpc_cancel_order req gateway_name ∈ calls →
       (∃ t, authorization = Some t ∧ get_access USERNAME t now = Return true)
       ∧ ∃ vt_orderid order,
           r = DELETE_order vt_orderid
           ∧ rpc_get_order rpc_client vt_orderid = Some order
           ∧ req = create_cancel_request order
           ∧ gateway_name = order_gateway_name order)
  ∧ (∀ req gateway_name, rpc_subscribe req gateway_name ∈ calls →
       (∃ t, authorization = Some t ∧ get_access USERNAME t now = Return true)
       ∧ ∃ vt_symbol contract,
           r = POST_tick vt_symbol
           ∧ rpc_get_contract rpc_client vt_symbol = Some contract
           ∧ req = {| sub_symbol := contract_symbol contract;
                      sub_exchange := contract_exchange contract |}
           ∧ gateway_name = contract_gateway_name contract).
Proof.
  rewrite serve_calls. intros Hcalls%app_inv_head. subst calls.
  destruct (granted USERNAME authorization now) eqn:Hacc;
    [apply granted_true in Hacc
    |(split; [|split]); intros ? ? Hin; by apply not_elem_of_nil in Hin].
  destruct r as [v| |model|id| | | | | ]; simpl;
    unfold subscribe, send_order, cancel_order, get_all_ticks, get_all_orders,
      get_all_trades, get_all_positions, get_all_accounts, get_all_contracts,
      mbind, stateful_bind, call, raise, lift, mret, stateful_ret; simpl.
  - destruct (rpc_get_contract rpc_client v) as [contract|] eqn:Hc; simpl;
      (split; [|split]); intros req gw Hin;
      repeat (apply elem_of_cons in Hin as [Hin|Hin]; [try discriminate Hin|]);
      try (by apply not_elem_of_nil in Hin).
    injection Hin as -> ->. split; [done|]. by exists v, contract.
  - (split; [|split]); intros req gw Hin;
      repeat (apply elem_of_cons in Hin as [Hin|Hin]; [try discriminate Hin|]);
      by apply not_elem_of_nil in Hin.
  - destruct (rpc_get_contract rpc_client (vt_symbol model)) as [contract|] eqn:Hc;
      simpl; (split; [|split]); intros req gw Hin;
      repeat (apply elem_of_cons in Hin as [Hin|Hin]; [try discriminate Hin|]);
      try (by apply not_elem_of_nil in Hin).
    injection Hin as -> ->. split; [done|]. split; [done|]. by exists contract.
  - destruct (rpc_get_order rpc_client id) as [order|] eqn:Ho; simpl;
      (split; [|split]); intros req gw Hin;
      repeat (apply elem_of_cons in Hin as [Hin|Hin]; [try discriminate Hin|]);
      try (by apply not_elem_of_nil in Hin).
    injection Hin as -> ->. split; [done|]. by exists id, order.
  - (split; [|split]); intros req gw Hin;
      repeat (apply elem_of_cons in Hin as [Hin|Hin]; [try discriminate Hin|]);
      by apply not_elem_of_nil in Hin.
  - (split; [|split]); intros req gw Hin;
      repeat (apply elem_of_cons in Hin as [Hin|Hin]; [try discriminate Hin|]);
      by apply not_elem_of_nil in Hin.
  - (split; [|split]); intros req gw Hin;
      repeat (apply elem_of_cons in Hin as [Hin|Hin]; [try discriminate Hin|]);
      by apply not_elem_of_nil in Hin.
  - (split; [|split]); intros req gw Hin;
      repeat (apply elem_of_cons in Hin as [Hin|Hin]; [try discriminate Hin|]);
      by apply not_elem_of_nil in Hin.
  - (split; [|split]); intros req gw Hin;
      repeat (apply elem_of_cons in Hin as [Hin|Hin]; [try discriminate Hin|]);
      by apply not_elem_of_nil in Hin.
Qed.

End Routes.

(** ** The engine and the management window *)

(** X16: every call [web.py] makes on [rpc_client] asks for a function
    that [WebEngine.init_server] registered on the server, so no request
    fails for a function the engine does not serve; and none asks for
    [connect], which is registered too. *)
Theorem served_calls_are_registered (c : rpc_call) :
  rpc_name c ∈ Rpc.functions WebEngine ∧ rpc_name c ≠ "connect"%string.
Proof.
  split; [|by destruct c].
  destruct c; apply (bool_decide_unpack _); vm_compute; exact I.
Qed.

Lemma start_server_active (rep_address pub_address : string) (server : Rpc.RpcServer) :
  Rpc.active server = true →
  start_server rep_address pub_address server = server.
Proof. unfold start_server, Rpc.is_active. by intros ->. Qed.

Lemma start_server_inactive (rep_address pub_address : string) (server : Rpc.RpcServer) :
  Rpc.active server = false →
  start_server rep_address pub_address server
  = {| Rpc.functions := Rpc.functions server; Rpc.active := true;
       Rpc.addresses := Some (rep_address, pub_address) |}.
Proof. unfold start_server, Rpc.is_active, Rpc.start. by intros ->. Qed.

(** X17: [start_server] starts a stopped server on the addresses given and
    leaves a running one as it is, so of two starts in a row only the first
    binds; the functions registered are kept; and after [close] a start
    binds again, on the new addresses. *)
Theorem start_server_binds_once (a b c d : string) (server : Rpc.RpcServer) :
  Rpc.active server = false →
  let started := start_server a b server in
  Rpc.active started = true
  ∧ Rpc.addresses started = Some (a, b)
  ∧ Rpc.functions started = Rpc.functions server
  ∧ start_server c d started = started
  ∧ Rpc.active (close started) = false
  ∧ Rpc.addresses (start_server c d (close started)) = Some (c, d).
Proof.
  intros Hoff started. unfold started.
  rewrite (start_server_inactive _ _ _ Hoff).
  repeat split.
Qed.

(** X18: the settings [start] saves are those [init_ui] reads back: a
    window opened on the file a [start] wrote shows, line by line, the six
    texts the window had at that [start]. *)
Theorem saved_settings_are_shown (d : desktop) :
  let m := manager d in
  let m' := init_ui (setting_file (start d)) in
  username_line m' = username_line m
  ∧ password_line m' = password_line m
  ∧ req_line m' = req_line m
  ∧ sub_line m' = sub_line m
  ∧ host_line m' = host_line m
  ∧ port_line m' = port_line m.
Proof.
  cbv zeta. unfold init_ui, start. cbn [setting_file manager username_line
    password_line req_line sub_line host_line port_line].
  repeat split; by simplify_map_eq.
Qed.

(** X19: [web.py] finds, in the settings [start] saves before it launches
    the web process, the four keys it reads when imported, and gets the
    username, password and addresses of the window; while on settings that
    lack one of these keys the import fails. *)
Theorem web_reads_what_start_saved (d : desktop) (setting : gmap string string) :
  load_web_setting (setting_file (start d))
  = Some (username_line (manager d), password_line (manager d),
          req_line (manager d), sub_line (manager d))
  ∧ (load_web_setting setting = None
     ↔ setting !! "username"%string = None ∨ setting !! "password"%string = None
       ∨ setting !! "req_address"%string = None
       ∨ setting !! "sub_address"%string = None).
Proof.
  split.
  - unfold load_web_setting, start. cbn [setting_file]. by simplify_map_eq.
  - unfold load_web_setting.
    destruct (setting !! "username"%string); simpl; [|tauto].
    destruct (setting !! "password"%string); simpl; [|tauto].
    destruct (setting !! "req_address"%string); simpl; [|tauto].
    destruct (setting !! "sub_address"%string); simpl; [|tauto].
    split; [done|]. intros [H|[H|[H|H]]]; done.
Qed.

Lemma act_buttons (d : desktop) (a : action) :
  (enabled (manager d) End_button = true →
   enabled (manager d) Start_button = false
   ∧ is_Some (process (manager d))
   ∧ ∀ w, w ≠ End_button → enabled (manager d) w = false) →
  enabled (manager (act d a)) End_button = true →
  enabled (manager (act d a)) Start_button = false
  ∧ is_Some (process (manager (act d a)))
  ∧ ∀ w, w ≠ End_button → enabled (manager (act d a)) w = false.
Proof.
  intros Hinv. destruct a as [| |w0 text| |]; cbn [act].
  - destruct (enabled (manager d) Start_button) eqn:Hs.
    + unfold start. cbn [manager enabled]. unfold setEnabled at 1.
      rewrite decide_False by done. intros He. destruct (Hinv He) as [Hs' _].
      congruence.
    + rewrite Hs. exact Hinv.
  - replace (if enabled (manager d) End_button then default d (end_ d) else d)
      with d; [exact Hinv|].
    destruct (enabled (manager d) End_button); [|done].
    unfold end_. by destruct (process (manager d)).
  - destruct (enabled (manager d) w0) eqn:Hw0; [|exact Hinv].
    unfold edit, with_manager. cbn [manager enabled process]. exact Hinv.
  - destruct (process (manager d)) as [cmd|] eqn:Hp; [|rewrite Hp; exact Hinv].
    unfold web_started, with_manager. cbn [manager enabled process].
    intros _. split; [done|]. split; [by rewrite Hp|].
    intros w Hw. by destruct w.
  - destruct (process (manager d)) as [cmd|] eqn:Hp; [|rewrite Hp; exact Hinv].
    unfold web_finished, with_manager. cbn [manager enabled process].
    unfold setEnabled at 1. by rewrite decide_True.
Qed.

(** X20: however the window is used, the Start and Stop buttons are never
    enabled together; and whenever Stop is enabled the six lines are
    disabled and the window holds a process, so that [end] finds the
    process it kills. *)
Theorem stop_button_has_a_process (setting : gmap string string)
    (actions : list action) :
  let d := foldl act (opened setting) actions in
  enabled (manager d) End_button = true →
  enabled (manager d) Start_button = false
  ∧ end_ d = Some d
  ∧ ∀ w, w ≠ End_button → enabled (manager d) w = false.
Proof.
  cbv zeta.
  assert (Hinv : ∀ d,
    (enabled (manager d) End_button = true →
     enabled (manager d) Start_button = false
     ∧ is_Some (process (manager d))
     ∧ ∀ w, w ≠ End_button → enabled (manager d) w = false) →
    enabled (manager (foldl act d actions)) End_button = true →
    enabled (manager (foldl act d actions)) Start_button = false
    ∧ is_Some (process (manager (foldl act d actions)))
    ∧ ∀ w, w ≠ End_button → enabled (manager (foldl act d actions)) w = false).
  { induction actions as [|a actions IH]; intros d Hd; [done|].
    simpl. apply IH. by apply act_buttons. }
  intros He. destruct (Hinv (opened setting)) as (Hs & [cmd Hp] & Hw); [done|done|].
  split; [done|]. split; [|done]. unfold end_. by rewrite Hp.
Qed.

Lemma act_web_engine (d : desktop) (a : action) :
  Rpc.active (web_engine d) = true → web_engine (act d a) = web_engine d.
Proof.
  intros Hon. destruct a as [| |w0 text| |]; cbn [act].
  - destruct (enabled (manager d) Start_button); [|done].
    unfold start. cbn [web_engine]. by apply start_server_active.
  - destruct (enabled (manager d) End_button); [|done].
    unfold end_. by destruct (process (manager d)).
  - by destruct (enabled (manager d) w0).
  - by destruct (process (manager d)).
  - by destruct (process (manager d)).
Qed.

(** X21: the window binds the engine's server once: from the moment the
    server runs, nothing done in the window stops it or changes its
    addresses, also when a later Start saves other addresses to the
    settings file, which the web process it launches will read. *)
Theorem window_binds_server_once (d : desktop) (actions : list action) :
  Rpc.active (web_engine d) = true →
  web_engine (foldl act d actions) = web_engine d
  ∧ (enabled (manager d) Start_button = true →
     setting_file (act d Click_start) !! "req_address"%string
       = Some (req_line (manager d))
     ∧ setting_file (act d Click_start) !! "sub_address"%string
       = Some (sub_line (manager d))).
Proof.
  intros Hon. split.
  - revert d Hon. induction actions as [|a actions IH]; intros d Hon; [done|].
    simpl. rewrite IH; [by apply act_web_engine|].
    by rewrite act_web_engine.
  - intros Hs. cbn [act]. rewrite Hs. unfold start. cbn [setting_file].
    split; by simplify_map_eq.
Qed.

(** ** The further properties at work on sample data *)


(** A client that joins while a broadcast is suspended in its first send is
    reached by that broadcast, after the three that were registered. *)
Lemma broadcast_reaches_late_joiner :
  ∃ w', broadcast_run "admin" a_client_joins
          {| task_msg := "tick"; task_next := 0 |} (run "admin" three_clients)
        = Some (Return (), w')
        ∧ active_websockets w' = [0; 1; 2; 3]%nat
        ∧ outbox w' 0 = ["tick"%string] ∧ outbox w' 1 = ["tick"%string]
        ∧ outbox w' 2 = ["tick"%string] ∧ outbox w' 3 = ["tick"%string].
Proof.
  eexists. split; [vm_compute; reflexivity|]. repeat split.
Qed.

(** A client that leaves while a broadcast is suspended makes the loop skip
    the one registered after it: with three clients registered, the first
    leaves during the first send, the second takes its place in the
    registry, and the loop, which goes on at the second position, sends to
    the third; the second, registered and with its transport up, receives
    nothing, and the broadcast returns. *)
Lemma broadcast_skips_when_one_leaves :
  ∃ w', broadcast_run "admin" first_client_leaves
          {| task_msg := "tick"; task_next := 0 |} (run "admin" three_clients)
        = Some (Return (), w')
        ∧ active_websockets w' = [1; 2]%nat
        ∧ transport_of w' 1 = true
        ∧ outbox w' 1 = [] ∧ outbox w' 2 = ["tick"%string].
Proof.
  eexists. split; [vm_compute; reflexivity|]. repeat split.
Qed.



Lemma login_session_window_witness :
  (get_access "admin" (admin_token 1000) 2800 = Return true ↔ 2800 ≤ 1000 + 1800)
  ∧ (get_access "admin" (admin_token 1000) 2801 = Return true ↔ 2801 ≤ 1000 + 1800).
Proof.
  split.
  - apply (login_session_window "admin" "secret" "salt" "admin" "secret" 1000 2800
             {| access_token := admin_token 1000; token_type := "bearer" |}).
    vm_compute; reflexivity.
  - apply (login_session_window "admin" "secret" "salt" "admin" "secret" 1000 2801
             {| access_token := admin_token 1000; token_type := "bearer" |}).
    vm_compute; reflexivity.
Defined.

Lemma login_refusal_witness :
  (login "admin" "secret" "salt" "admin" "guess" 0
   = Raise (HTTPException 401 "Incorrect username or password" bearer_headers)
   ↔ ¬ ("admin"%string = "admin"%string ∧ "guess"%string = "secret"%string)
     ∨ "admin"%string = EmptyString)
  ∧ (∃ tok, login "admin" "secret" "salt" "admin" "secret" 0 = Return tok
            ∧ token_type tok = "bearer"%string)
  ∧ login "admin" "secret" "salt" umlaut_name "secret" 0 = Raise TypeError
  ∧ login "admin" "secret" "salt" "admin" nul_password 0 = Raise ValueError.
Proof.
  split; [|split; [|split]].
  - apply (proj1 (proj1 (login_refusal "admin" "secret" "salt" "admin" "guess" 0
                           eq_refl) eq_refl eq_refl eq_refl)).
  - apply (proj2 (proj1 (login_refusal "admin" "secret" "salt" "admin" "secret" 0
                           eq_refl) eq_refl eq_refl eq_refl));
      [reflexivity | reflexivity | discriminate].
  - apply (proj1 (proj2 (login_refusal "admin" "secret" "salt" umlaut_name "secret" 0
                           eq_refl))).
    reflexivity.
  - apply (proj2 (proj2 (login_refusal "admin" "secret" "salt" "admin" nul_password 0
                           eq_refl)) eq_refl eq_refl eq_refl).
Defined.

Lemma websocket_route_agrees_with_get_access_witness :
  (websocket_route "admin" (Some (admin_token 0)) 10 startup).1 = Return ().
Proof.
  apply (websocket_route_agrees_with_get_access "admin" (Some (admin_token 0)) 10 startup).
  exists (admin_token 0). split; [reflexivity | vm_compute; reflexivity].
Defined.

Lemma login_token_opens_push_channel_witness :
  ((websocket_route "admin" (Some (admin_token 1000)) 2800 startup).1 = Return ()
   ↔ 2800 ≤ 1000 + 1800)
  ∧ ((websocket_route "admin" (Some (admin_token 1000)) 2801 startup).1 = Return ()
     ↔ 2801 ≤ 1000 + 1800).
Proof.
  split.
  - apply (login_token_opens_push_channel "admin" "secret" "salt" "admin" "secret"
             1000 2800 {| access_token := admin_token 1000; token_type := "bearer" |}).
    vm_compute; reflexivity.
  - apply (login_token_opens_push_channel "admin" "secret" "salt" "admin" "secret"
             1000 2801 {| access_token := admin_token 1000; token_type := "bearer" |}).
    vm_compute; reflexivity.
Defined.

Lemma accepted_handshake_joins_witness :
  websocket_route "admin" (Some (admin_token 0)) 10 three_connections
  = (Return (),
     {| sockets := sockets three_connections
                   ++ [ {| accepted := true; close_code := None; sent := [];
                           transport_up := true; task := Receiving |} ];
        active_websockets := active_websockets three_connections
                             ++ [length (sockets three_connections)] |}).
Proof.
  apply (accepted_handshake_joins "admin" (admin_token 0) 10 three_connections).
  vm_compute; reflexivity.
Defined.

Lemma refused_subject_is_closed_witness :
  websocket_route "admin" (Some anonymous_token) 10 startup
  = (Raise credentials_exception,
     {| sockets := sockets startup
                   ++ [ {| accepted := false;
                           close_code := Some WS_1008_POLICY_VIOLATION;
                           sent := []; transport_up := true; task := Finished |} ];
        active_websockets := active_websockets startup |})
  ∧ websocket_route "root" (Some (admin_token 0)) 10 startup
    = (Raise credentials_exception,
       {| sockets := sockets startup
                     ++ [ {| accepted := false;
                             close_code := Some WS_1008_POLICY_VIOLATION;
                             sent := []; transport_up := true; task := Finished |} ];
          active_websockets := active_websockets startup |})
  ∧ websocket_route "admin" (Some (umlaut_token 0)) 10 startup
    = (Raise TypeError,
       {| sockets := sockets startup
                     ++ [ {| accepted := false; close_code := None;
                             sent := []; transport_up := true; task := Finished |} ];
          active_websockets := active_websockets startup |}).
Proof.
  split; [|split].
  - apply (proj1 (refused_subject_is_closed "admin" (Some anonymous_token) 10 startup)).
    right. left. exists anonymous_token, {[ "exp"%string := Jose.VNum 1800 ]}.
    split; [reflexivity|]. split; vm_compute; reflexivity.
  - apply (proj1 (refused_subject_is_closed "root" (Some (admin_token 0)) 10 startup)).
    right. right.
    exists (admin_token 0),
      (<[ "exp"%string := Jose.VNum 1800 ]>
         ({[ "sub"%string := Jose.VStr "admin" ]} : gmap string Jose.value)),
      "admin"%string.
    split; [reflexivity|]. split; [vm_compute; reflexivity|].
    split; [vm_compute; reflexivity|]. split; [discriminate|].
    split; reflexivity.
  - apply (proj2 (refused_subject_is_closed "admin" (Some (umlaut_token 0)) 10 startup)
             (umlaut_token 0)
             (<[ "exp"%string := Jose.VNum 1800 ]>
                ({[ "sub"%string := Jose.VStr umlaut_name ]} : gmap string Jose.value))
             umlaut_name eq_refl).
    + vm_compute; reflexivity.
    + vm_compute; reflexivity.
    + reflexivity.
Defined.

Lemma unaccepted_websocket_gets_nothing_witness :
  ∃ s, sockets (run "admin" mixed_handshakes) !! 1%nat = Some s
       ∧ accepted s = false ∧ sent s = [].
Proof.
  exists {| accepted := false; close_code := Some WS_1008_POLICY_VIOLATION;
            sent := []; transport_up := true; task := Finished |}.
  split; [vm_compute; reflexivity|]. split; [reflexivity|].
  apply (unaccepted_websocket_gets_nothing "admin" mixed_handshakes 1%nat);
    [vm_compute; reflexivity | reflexivity].
Defined.

Lemma registered_websockets_are_accepted_witness :
  let s := {| accepted := true; close_code := None; sent := ["tick"%string];
              transport_up := true; task := Receiving |} in
  (0%nat ∈ active_websockets (run "admin" mixed_handshakes) →
   accepted s = true ∧ close_code s = None)
  ∧ (∀ code, close_code s = Some code →
       code = WS_1008_POLICY_VIOLATION ∧ accepted s = false
       ∧ 0%nat ∉ active_websockets (run "admin" mixed_handshakes)).
Proof.
  apply (registered_websockets_are_accepted "admin" mixed_handshakes 0%nat).
  vm_compute; reflexivity.
Defined.

Lemma finished_websocket_gets_nothing_more_witness :
  task_of (run "admin" first_leaves) 0%nat = Finished
  ∧ outbox (run "admin" (first_leaves ++ [Publishes "tick"])) 0%nat = []
  ∧ outbox (run "admin" (first_leaves ++ [Publishes "tick"])) 1%nat = ["tick"%string].
Proof.
  split; [vm_compute; reflexivity|]. split; [|vm_compute; reflexivity].
  apply (finished_websocket_gets_nothing_more "admin" first_leaves
           [Publishes "tick"] 0%nat
           {| accepted := true; close_code := None; sent := [];
              transport_up := true; task := Finished |});
    [vm_compute; reflexivity | reflexivity].
Defined.

Lemma broadcasts_arrive_in_order_witness :
  outbox (run "admin" (first_leaves ++ (Publishes <$> ["a"; "b"]%string))) 1%nat
  = if decide (1%nat ∈ active_websockets (run "admin" first_leaves))
    then outbox (run "admin" first_leaves) 1%nat ++ ["a"; "b"]%string
    else outbox (run "admin" first_leaves) 1%nat.
Proof.
  apply (broadcasts_arrive_in_order "admin" first_leaves ["a"; "b"]%string 1%nat).
  intros x Hx. change (x ∈ [1%nat]) in Hx.
  apply list_elem_of_singleton in Hx as ->. vm_compute; reflexivity.
Defined.

Lemma unknown_reference_is_404_witness :
  serve "admin" empty_backend (Some (admin_token 0)) (DELETE_order "X1") 10 []
  = (Raise (HTTPException 404 ("Delegation " +:+ "X1" +:+ " not found.") bearer_headers),
     [] ++ [get_order "X1"]).
Proof.
  apply (unknown_reference_is_404 "admin" empty_backend (admin_token 0) 10 []);
    [vm_compute; reflexivity | reflexivity].
Defined.

Lemma mutating_calls_are_guarded_witness :
  POST_order sample_order = POST_order sample_order
  ∧ (∃ t, Some (admin_token 0) = Some t ∧ get_access "admin" t 10 = Return true)
  ∧ ∃ contract,
      rpc_get_contract one_contract_backend (vt_symbol sample_order) = Some contract
      ∧ "CTP"%string = contract_gateway_name contract.
Proof.
  apply (proj1 (mutating_calls_are_guarded "admin" one_contract_backend
                  (Some (admin_token 0)) (POST_order sample_order) 10 []
                  [get_contract "rb2410.SHFE"; rpc_send_order sample_order "CTP"]
                  ltac:(vm_compute; reflexivity))).
  apply elem_of_cons. right. apply elem_of_cons. by left.
Defined.

Lemma start_server_binds_once_witness :
  let started := start_server "tcp://127.0.0.1:2014" "tcp://127.0.0.1:4102" WebEngine in
  Rpc.active started = true
  ∧ Rpc.addresses started = Some ("tcp://127.0.0.1:2014", "tcp://127.0.0.1:4102")%string
  ∧ Rpc.functions started = Rpc.functions WebEngine
  ∧ start_server "tcp://0.0.0.0:1" "tcp://0.0.0.0:2" started = started
  ∧ Rpc.active (close started) = false
  ∧ Rpc.addresses (start_server "tcp://0.0.0.0:1" "tcp://0.0.0.0:2" (close started))
    = Some ("tcp://0.0.0.0:1", "tcp://0.0.0.0:2")%string.
Proof.
  apply (start_server_binds_once "tcp://127.0.0.1:2014" "tcp://127.0.0.1:4102"
           "tcp://0.0.0.0:1" "tcp://0.0.0.0:2" WebEngine).
  reflexivity.
Defined.

Lemma stop_button_has_a_process_witness :
  let d := foldl act (opened ∅) [Click_start; Signal_started] in
  enabled (manager d) Start_button = false
  ∧ end_ d = Some d
  ∧ ∀ w, w ≠ End_button → enabled (manager d) w = false.
Proof.
  apply (stop_button_has_a_process ∅ [Click_start; Signal_started]).
  vm_compute; reflexivity.
Defined.

Lemma window_binds_server_once_witness :
  web_engine (foldl act after_one_session
                [Types Req_line "tcp://127.0.0.1:9999"; Click_start])
  = web_engine after_one_session
  ∧ (enabled (manager after_one_session) Start_button = true →
     setting_file (act after_one_session Click_start) !! "req_address"%string
       = Some (req_line (manager after_one_session))
     ∧ setting_file (act after_one_session Click_start) !! "sub_address"%string
       = Some (sub_line (manager after_one_session))).
Proof.
  apply (window_binds_server_once after_one_session
           [Types Req_line "tcp://127.0.0.1:9999"; Click_start]).
  vm_compute; reflexivity.
Defined.
